(** * DingusPPC: the Grand Central I/O controller and the PCI byte-lane helpers

    A shallow embedding of
      - [pci_conv_rd_data] and [pci_conv_wr_data] (the PCI host header), and
      - [GrandCentral::read], [GrandCentral::write],
        [GrandCentral::register_dev_int] and [GrandCentral::ack_int]
        (devices/ioctrl/grandcentral.cpp),
    with the properties of the design document stated over them.

    A [uint32_t] is a [Z] in the range 0 .. 2^32-1; wrap-around is written out
    with [u32]. *)

From Stdlib Require Import ZArith Lia List Bool String.
Import ListNotations.
Local Open Scope Z_scope.

(** ** Machine integers *)

Module Bits.

Definition u32 (x : Z) : Z := Z.land x 0xFFFFFFFF.

Definition is_u32 (x : Z) : Prop := 0 <= x < 2 ^ 32.

(** Modelled from the spec: [BYTESWAP_16] of endianswap.h, a header that is
    not among the sources.  The codec is specified to apply an "endian
    lane-swap"; the macro stands for the compiler's 16-bit byte swap, which
    takes and returns a 16-bit unsigned integer, so that the argument is
    truncated first. *)
Definition BYTESWAP_16 (x : Z) : Z :=
  Z.lor (Z.shiftl (Z.land x 0xFF) 8) (Z.land (Z.shiftr x 8) 0xFF).

(** Modelled from the spec: [BYTESWAP_32] of endianswap.h, likewise; the
    four bytes of a 32-bit value in reverse order. *)
Definition BYTESWAP_32 (x : Z) : Z :=
  Z.lor (Z.lor (Z.shiftl (Z.land x 0xFF) 24)
               (Z.shiftl (Z.land (Z.shiftr x 8) 0xFF) 16))
        (Z.lor (Z.shiftl (Z.land (Z.shiftr x 16) 0xFF) 8)
               (Z.land (Z.shiftr x 24) 0xFF)).

(** Modelled from the spec: [ROTL_32] of core/bitops.h, a header that is not
    among the sources; the 32-bit rotation to the left ("rotated left by o
    bytes"). *)
Definition ROTL_32 (x n : Z) : Z :=
  u32 (Z.lor (Z.shiftl x n) (Z.shiftr x (32 - n))).

(** Modelled from the spec: [ROTR_32] of core/bitops.h, likewise; the 32-bit
    rotation to the right. *)
Definition ROTR_32 (x n : Z) : Z :=
  u32 (Z.lor (Z.shiftr x n) (Z.shiftl x (32 - n))).

End Bits.

(** ** The byte-lane codec of the PCI configuration space *)

Module Pci.
Import Bits.

(** PCI config space access details *)
Record AccessDetails : Set := mkAccessDetails {
  size   : Z;   (* uint8_t *)
  offset : Z;   (* uint8_t *)
  flags  : Z    (* uint8_t *)
}.

Definition PCI_CONFIG_READ  : Z := 0.
Definition PCI_CONFIG_WRITE : Z := 1.

Definition is_u8 (x : Z) : Prop := 0 <= x < 256.

Definition wf_details (d : AccessDetails) : Prop :=
  is_u8 (size d) /\ is_u8 (offset d) /\ is_u8 (flags d).

(** The discriminant of both switches: [details.size << 2 | details.offset]. *)
Definition lane_sel (details : AccessDetails) : Z :=
  Z.lor (Z.shiftl (size details) 2) (offset details).

(** The case labels of the two switches. *)
Definition lane_sels : list Z :=
  [0x04; 0x05; 0x06; 0x07; 0x08; 0x09; 0x0A; 0x0B; 0x10; 0x11; 0x12; 0x13].

Definition pci_conv_rd_data (value : Z) (details : AccessDetails) : Z :=
  match lane_sel details with
  (* Bytes *)
  | 0x04 => Z.land value 0xFF
  | 0x05 => Z.land (Z.shiftr value 8) 0xFF
  | 0x06 => Z.land (Z.shiftr value 16) 0xFF
  | 0x07 => Z.land (Z.shiftr value 24) 0xFF
  (* Words *)
  | 0x08 => BYTESWAP_16 value
  | 0x09 => BYTESWAP_16 (Z.land (Z.shiftr value 8) 0xFFFF)
  | 0x0A => BYTESWAP_16 (Z.land (Z.shiftr value 16) 0xFFFF)
  | 0x0B => Z.lor (Z.land (Z.shiftr value 16) 0xFF00) (Z.land value 0xFF)
  (* Dwords *)
  | 0x10 => BYTESWAP_32 value
  | 0x11 => ROTL_32 (BYTESWAP_32 value) 8
  | 0x12 => ROTL_32 (BYTESWAP_32 value) 16
  | 0x13 => ROTR_32 (BYTESWAP_32 value) 8
  | _ => 0xFFFFFFFF
  end.

Definition pci_conv_wr_data (v1 v2 : Z) (details : AccessDetails) : Z :=
  match lane_sel details with
  (* Bytes *)
  | 0x04 => Z.lor (Z.land v1 (Z.lnot 0xFF)) (Z.land v2 0xFF)
  | 0x05 => Z.lor (Z.land v1 (Z.lnot 0xFF00)) (Z.shiftl (Z.land v2 0xFF) 8)
  | 0x06 => Z.lor (Z.land v1 (Z.lnot 0xFF0000)) (Z.shiftl (Z.land v2 0xFF) 16)
  | 0x07 => Z.lor (Z.land v1 0x00FFFFFF) (Z.shiftl (Z.land v2 0xFF) 24)
  (* Words *)
  | 0x08 => Z.lor (Z.land v1 (Z.lnot 0xFFFF)) (BYTESWAP_16 v2)
  | 0x09 => Z.lor (Z.land v1 (Z.lnot 0xFFFF00)) (Z.shiftl (BYTESWAP_16 v2) 8)
  | 0x0A => Z.lor (Z.land v1 0x0000FFFF) (Z.shiftl (BYTESWAP_16 v2) 16)
  | 0x0B => Z.lor (Z.lor (Z.land v1 0x00FFFF00)
                         (Z.shiftl (Z.land v2 0xFF00) 16))
                  (Z.land v2 0xFF)
  (* Dwords *)
  | 0x10 => BYTESWAP_32 v2
  | 0x11 => ROTL_32 (BYTESWAP_32 v2) 8
  | 0x12 => ROTL_32 (BYTESWAP_32 v2) 16
  | 0x13 => ROTR_32 (BYTESWAP_32 v2) 8
  | _ => 0xFFFFFFFF
  end.

End Pci.


(** ** Symbolic 32-bit expressions

    The codec is built from masks, shifts and bitwise or, and-ing and
    negation of one backing value.  Equalities between such expressions are
    decided bit by bit: an expression is turned, for each bit position, into
    a boolean formula over the bits of the backing value. *)

Module WordExpr.

Inductive wexp : Set :=
| WVar
| WCst (c : Z)
| WAnd (a b : wexp)
| WOr (a b : wexp)
| WNot (a : wexp)
| WShl (a : wexp) (k : Z)
| WShr (a : wexp) (k : Z).

Fixpoint weval (v : Z) (e : wexp) : Z :=
  match e with
  | WVar => v
  | WCst c => c
  | WAnd a b => Z.land (weval v a) (weval v b)
  | WOr a b => Z.lor (weval v a) (weval v b)
  | WNot a => Z.lnot (weval v a)
  | WShl a k => Z.shiftl (weval v a) k
  | WShr a k => Z.shiftr (weval v a) k
  end.

Inductive bform : Set :=
| BCst (b : bool)
| BBit (n : Z)
| BAnd (p q : bform)
| BOr (p q : bform)
| BNeg (p : bform).

Fixpoint bden (bits : Z -> bool) (p : bform) : bool :=
  match p with
  | BCst b => b
  | BBit n => bits n
  | BAnd p q => bden bits p && bden bits q
  | BOr p q => bden bits p || bden bits q
  | BNeg p => negb (bden bits p)
  end.

Definition band (p q : bform) : bform :=
  match p, q with
  | BCst true, _ => q
  | BCst false, _ => BCst false
  | _, BCst true => p
  | _, BCst false => BCst false
  | _, _ => BAnd p q
  end.

Definition bor (p q : bform) : bform :=
  match p, q with
  | BCst true, _ => BCst true
  | BCst false, _ => q
  | _, BCst true => BCst true
  | _, BCst false => p
  | _, _ => BOr p q
  end.

Definition bneg (p : bform) : bform :=
  match p with
  | BCst b => BCst (negb b)
  | _ => BNeg p
  end.

(** The formula of bit [n] (for [0 <= n]) of an expression. *)
Fixpoint wbit (e : wexp) (n : Z) : bform :=
  match e with
  | WVar => BBit n
  | WCst c => BCst (Z.testbit c n)
  | WAnd a b => band (wbit a n) (wbit b n)
  | WOr a b => bor (wbit a n) (wbit b n)
  | WNot a => bneg (wbit a n)
  | WShl a k => if n - k <? 0 then BCst false else wbit a (n - k)
  | WShr a k => if n + k <? 0 then BCst false else wbit a (n + k)
  end.

Fixpoint beqb (p q : bform) : bool :=
  match p, q with
  | BCst a, BCst b => Bool.eqb a b
  | BBit n, BBit m => n =? m
  | BAnd p1 p2, BAnd q1 q2 => beqb p1 q1 && beqb p2 q2
  | BOr p1 p2, BOr q1 q2 => beqb p1 q1 && beqb p2 q2
  | BNeg p1, BNeg q1 => beqb p1 q1
  | _, _ => false
  end.

(** An upper bound on the highest set bit, for a 32-bit backing value:
    [Some w] promises that every bit from position [w] on is clear. *)
Fixpoint whi (e : wexp) : option Z :=
  match e with
  | WVar => Some 32
  | WCst c => if 0 <=? c then Some (Z.log2 c + 1) else None
  | WAnd a b =>
      match whi a, whi b with
      | Some x, Some y => Some (Z.min x y)
      | Some x, None => Some x
      | None, Some y => Some y
      | None, None => None
      end
  | WOr a b =>
      match whi a, whi b with
      | Some x, Some y => Some (Z.max x y)
      | _, _ => None
      end
  | WNot _ => None
  | WShl a k => option_map (fun w => w + k) (whi a)
  | WShr a k => option_map (fun w => w - k) (whi a)
  end.

Definition fits32 (e : wexp) : bool :=
  match whi e with
  | Some w => w <=? 32
  | None => false
  end.

Definition lanes32 : list Z := map Z.of_nat (seq 0 32).

Definition wcheck (e1 e2 : wexp) : bool :=
  fits32 e1 && fits32 e2 &&
  forallb (fun n => beqb (wbit e1 n) (wbit e2 n)) lanes32.

End WordExpr.

(** ** The Grand Central I/O controller *)

Module GC.
Import Bits.

(** What a call leaves behind: a value, or the process aborted by [ABORT_F]. *)
Inductive outcome (A : Type) : Type :=
| Done (a : A)
| Abort (msg : string).
Arguments Done {A} a.
Arguments Abort {A} msg.

Definition bind {A B : Type} (m : outcome A) (f : A -> outcome B) : outcome B :=
  match m with
  | Done a => f a
  | Abort msg => Abort msg
  end.

Notation "x <- m ;; k" := (bind m (fun x => k))
  (at level 61, m at next level, right associativity).

(** C truth value of an integer. *)
Definition nonzero (x : Z) : bool := negb (x =? 0).

(** Constants of headers that are not among the sources (the register
    offsets and bits of macio.h, the enumerators of [IntSrc]); they are
    parameters of the model. *)
Class MacioConsts : Set := {
  MIO_INT_EVENTS1 : Z;
  MIO_INT_MASK1   : Z;
  MIO_INT_CLEAR1  : Z;
  MIO_INT_LEVELS1 : Z;
  MACIO_INT_CLR   : Z;
  MACIO_INT_MODE  : Z;
  VIA_CUDA        : Z;
  SCSI1           : Z;
  SWIM3           : Z
}.

(** An offset of the interrupt register space: neither window bit is set. *)
Definition int_space (offset : Z) : Prop :=
  Z.land offset 0x10000 = 0 /\ Z.land offset 0x8000 = 0.

(** The enumerators named in [register_dev_int] are case labels of one
    switch, hence pairwise different. *)
Definition distinct_sources {K : MacioConsts} : Prop :=
  VIA_CUDA <> SCSI1 /\ VIA_CUDA <> SWIM3 /\ SCSI1 <> SWIM3.

(** The fields of the controller that its register handlers use; they are
    declared in macio.h and taken to be 32 bits wide. *)
Record GCState : Set := mkGC {
  base_addr     : Z;
  int_mask      : Z;
  int_levels    : Z;
  int_events    : Z;
  nvram_addr_hi : Z
}.

Definition set_int_mask (gc : GCState) (x : Z) : GCState :=
  mkGC (base_addr gc) x (int_levels gc) (int_events gc) (nvram_addr_hi gc).

Definition set_int_levels (gc : GCState) (x : Z) : GCState :=
  mkGC (base_addr gc) (int_mask gc) x (int_events gc) (nvram_addr_hi gc).

Definition set_int_events (gc : GCState) (x : Z) : GCState :=
  mkGC (base_addr gc) (int_mask gc) (int_levels gc) x (nvram_addr_hi gc).

Definition set_nvram_addr_hi (gc : GCState) (x : Z) : GCState :=
  mkGC (base_addr gc) (int_mask gc) (int_levels gc) (int_events gc) x.

(** Calls forwarded to the subdevices; their behaviour is outside the
    controller. *)
Inductive dev_read : Set :=
| scsi_0_read (reg : Z)
| mace_read (reg : Z)
| escc_read (reg : Z)
| awacs_snd_ctrl_read (offset : Z) (size : Z)
| viacuda_read (reg : Z)
| nvram_read_byte (addr : Z)
| snd_out_dma_reg_read (offset : Z) (size : Z).

Inductive dev_write : Set :=
| scsi_0_write (reg value : Z)
| mace_write (reg value : Z)
| escc_write (reg value : Z)
| awacs_snd_ctrl_write (offset value : Z) (size : Z)
| viacuda_write (reg value : Z)
| nvram_write_byte (addr value : Z)
| snd_out_dma_reg_write (offset value : Z) (size : Z).

(** The value a read hands back: one computed by the controller, or the
    one the subdevice returns for the forwarded call. *)
Inductive read_ret : Set :=
| Returns (v : Z)
| ReturnsFrom (c : dev_read).

(** Warnings written with [LOG_F]. *)
Inductive log_msg : Set :=
| unimplemented_subdevice (subdev_num : Z)
| unimplemented_dma (addr : Z)
| reading_unmapped (addr : Z)
| writing_unmapped (addr : Z).

(** The subdevice numbers with a case in the switch of [read], resp. of
    [write], for the device register space. *)
Definition read_subdevs : list Z := [0; 1; 2; 3; 4; 6; 7; 0xA; 0xF].
Definition write_subdevs : list Z := [0; 1; 2; 3; 4; 6; 7; 0xD; 0xF].

Definition subdev_of (offset : Z) : Z := Z.land (Z.shiftr offset 12) 0xF.

Definition dev_space (offset : Z) : Prop := Z.land offset 0x10000 <> 0.

Definition dma_space (offset : Z) : Prop :=
  Z.land offset 0x10000 = 0 /\ Z.land offset 0x8000 <> 0.

Section Controller.
Context {K : MacioConsts}.

Definition read (gc : GCState) (offset : Z) (size : Z)
  : outcome (GCState * read_ret * list log_msg) :=
  let from c := Done (gc, ReturnsFrom c, []) in
  let unmapped log :=
    Done (gc, Returns 0,
          log ++ [reading_unmapped (u32 (base_addr gc + offset))]) in
  if nonzero (Z.land offset 0x10000) then (* Device register space *)
    let subdev_num := Z.land (Z.shiftr offset 12) 0xF in
    match subdev_num with
    | 0 => (* Curio SCSI *)
        from (scsi_0_read (Z.land (Z.shiftr offset 4) 0xF))
    | 1 => (* MACE *)
        from (mace_read (Z.land (Z.shiftr offset 4) 0x1F))
    | 2 => (* ESCC compatible addressing *)
        if Z.land offset 0xFF <? 16
        then from (escc_read (Z.land (Z.shiftr offset 1) 0xF))
        else (* fallthrough *)
          from (escc_read (Z.land (Z.shiftr offset 4) 0xF))
    | 3 => (* ESCC MacRISC addressing *)
        from (escc_read (Z.land (Z.shiftr offset 4) 0xF))
    | 4 => (* AWACS *)
        from (awacs_snd_ctrl_read (Z.land offset 0xFF) size)
    | 6 | 7 => (* VIA-CUDA *)
        from (viacuda_read (Z.land (Z.shiftr offset 9) 0xF))
    | 0xA => (* Board register 1 (IOBus dev #1) *)
        Done (gc, Returns (BYTESWAP_32 0x100), [])
    | 0xF => (* NVRAM Data (IOBus dev #6) *)
        from (nvram_read_byte
                (u32 (Z.shiftl (nvram_addr_hi gc) 5
                      + Z.land (Z.shiftr offset 4) 0x1F)))
    | _ => unmapped [unimplemented_subdevice subdev_num]
    end
  else if nonzero (Z.land offset 0x8000) then (* DMA register space *)
    let subdev_num := Z.land (Z.shiftr offset 12) 0xF in
    match subdev_num with
    | 8 => from (snd_out_dma_reg_read (Z.land offset 0xFF) size)
    | _ => unmapped [unimplemented_dma (u32 (base_addr gc + offset))]
    end
  else (* Interrupt related registers *)
    if offset =? MIO_INT_MASK1 then
      Done (gc, Returns (BYTESWAP_32 (int_mask gc)), [])
    else if offset =? MIO_INT_LEVELS1 then
      Done (gc, Returns (BYTESWAP_32 (int_levels gc)), [])
    else if offset =? MIO_INT_EVENTS1 then
      Done (gc, Returns (BYTESWAP_32 (int_events gc)), [])
    else unmapped [].

Definition write (gc : GCState) (offset : Z) (value : Z) (size : Z)
  : outcome (GCState * option dev_write * list log_msg) :=
  let to c := Done (gc, Some c, []) in
  if nonzero (Z.land offset 0x10000) then (* Device register space *)
    let subdev_num := Z.land (Z.shiftr offset 12) 0xF in
    match subdev_num with
    | 0 => (* Curio SCSI *)
        to (scsi_0_write (Z.land (Z.shiftr offset 4) 0xF) value)
    | 1 => (* MACE registers *)
        to (mace_write (Z.land (Z.shiftr offset 4) 0x1F) value)
    | 2 => (* ESCC compatible addressing *)
        if Z.land offset 0xFF <? 16
        then to (escc_write (Z.land (Z.shiftr offset 1) 0xF) value)
        else (* fallthrough *)
          to (escc_write (Z.land (Z.shiftr offset 4) 0xF) value)
    | 3 => (* ESCC MacRISC addressing *)
        to (escc_write (Z.land (Z.shiftr offset 4) 0xF) value)
    | 4 => (* AWACS *)
        to (awacs_snd_ctrl_write (Z.land offset 0xFF) value size)
    | 6 | 7 => (* VIA-CUDA *)
        to (viacuda_write (Z.land (Z.shiftr offset 9) 0xF) value)
    | 0xD => (* NVRAM High Address (IOBus dev #4) *)
        let hi :=
          match size with
          | 4 => BYTESWAP_32 value
          | 2 => BYTESWAP_16 value
          | _ => value
          end in
        Done (set_nvram_addr_hi gc hi, None, [])
    | 0xF => (* NVRAM Data (IOBus dev #6) *)
        to (nvram_write_byte
              (u32 (Z.shiftl (nvram_addr_hi gc) 5
                    + Z.land (Z.shiftr offset 4) 0x1F))
              value)
    | _ => Done (gc, None, [unimplemented_subdevice subdev_num])
    end
  else if nonzero (Z.land offset 0x8000) then (* DMA register space *)
    let subdev_num := Z.land (Z.shiftr offset 12) 0xF in
    match subdev_num with
    | 8 => to (snd_out_dma_reg_write (Z.land offset 0xFF) value size)
    | _ =>
        Done (gc, None, [unimplemented_dma (u32 (base_addr gc + offset))])
    end
  else (* Interrupt related registers *)
    if offset =? MIO_INT_MASK1 then
      Done (set_int_mask gc (BYTESWAP_32 value), None, [])
    else if offset =? MIO_INT_CLEAR1 then
      if nonzero (Z.land value MACIO_INT_CLR)
      then Done (set_int_events gc 0, None, [])
      else Done (set_int_events gc
                   (Z.land (int_events gc) (BYTESWAP_32 value)),
                 None, [])
    else
      Done (gc, None, [writing_unmapped (u32 (base_addr gc + offset))]).

Definition register_dev_int (src_id : Z) : outcome Z :=
  if src_id =? VIA_CUDA then Done (Z.shiftl 1 18)
  else if src_id =? SCSI1 then Done (Z.shiftl 1 12)
  else if src_id =? SWIM3 then Done (Z.shiftl 1 19)
  else Abort "GC: unknown interrupt source".

Definition register_dma_int (src_id : Z) : outcome Z :=
  Abort "GC: register_dma_int() not implemened".

(** [ack_int] returns the new state and whether [ppc_ext_int] was called. *)
Definition ack_int (gc : GCState) (irq_id : Z) (irq_line_state : Z)
  : outcome (GCState * bool) :=
  if nonzero (Z.land (int_mask gc) MACIO_INT_MODE) then
    (* 68k interrupt emulation mode *)
    let gc1 := set_int_events gc (Z.lor (int_events gc) irq_id) in
    let gc2 := set_int_events gc1 (Z.land (int_events gc1) (int_mask gc1)) in
    let gc3 :=
      if nonzero irq_line_state
      then set_int_levels gc2 (Z.lor (int_levels gc2) irq_id)
      else set_int_levels gc2 (Z.land (int_levels gc2) (u32 (Z.lnot irq_id)))
    in
    Done (gc3, nonzero (int_events gc3))
  else Abort "GC: native interrupt mode not implemented".

(** The three operations on the interrupt state, as the guest and the
    devices reach them. *)
Inductive int_op : Set :=
| Acknowledge (irq_id : Z) (irq_line_state : Z)
| SetMask (value : Z)
| ClearEvents (value : Z).

Definition step (gc : GCState) (op : int_op) : outcome GCState :=
  match op with
  | Acknowledge irq_id line => r <- ack_int gc irq_id line ;; Done (fst r)
  | SetMask value => r <- write gc MIO_INT_MASK1 value 4 ;; Done (fst (fst r))
  | ClearEvents value =>
      r <- write gc MIO_INT_CLEAR1 value 4 ;; Done (fst (fst r))
  end.

Fixpoint run (gc : GCState) (ops : list int_op) : outcome GCState :=
  match ops with
  | [] => Done gc
  | op :: ops' => gc' <- step gc op ;; run gc' ops'
  end.

(** [events & ~mask == 0], in 32 bits. *)
Definition remasked (gc : GCState) : Prop :=
  Z.land (int_events gc) (u32 (Z.lnot (int_mask gc))) = 0.

(** The call a read or a write forwards to a subdevice, if any. *)
Definition read_route (gc : GCState) (offset size : Z) : option dev_read :=
  match read gc offset size with
  | Done (_, ReturnsFrom c, _) => Some c
  | _ => None
  end.

Definition write_route (gc : GCState) (offset value size : Z)
  : option dev_write :=
  match write gc offset value size with
  | Done (_, c, _) => c
  | Abort _ => None
  end.

(** Offsets that no case of [read], resp. of [write], handles. *)
Definition unhandled_read (offset : Z) : Prop :=
  (dev_space offset /\ ~ In (subdev_of offset) read_subdevs) \/
  (dma_space offset /\ subdev_of offset <> 8) \/
  (int_space offset /\
   ~ In offset [MIO_INT_MASK1; MIO_INT_LEVELS1; MIO_INT_EVENTS1]).

Definition unhandled_write (offset : Z) : Prop :=
  (dev_space offset /\ ~ In (subdev_of offset) write_subdevs) \/
  (dma_space offset /\ subdev_of offset <> 8) \/
  (int_space offset /\ ~ In offset [MIO_INT_MASK1; MIO_INT_CLEAR1]).

(** Routing as a function of the offset alone: whatever the controller
    went through before, the same offset is forwarded to the same call. *)
Definition routing_by_offset_alone : Prop :=
  forall gc gc' offset value size,
    read_route gc offset size = read_route gc' offset size /\
    write_route gc offset value size = write_route gc' offset value size.

End Controller.

(** One assignment of the constants, to run the model on concrete inputs. *)
Definition sample_consts : MacioConsts := {|
  MIO_INT_EVENTS1 := 0x20;
  MIO_INT_MASK1   := 0x24;
  MIO_INT_CLEAR1  := 0x28;
  MIO_INT_LEVELS1 := 0x2C;
  MACIO_INT_CLR   := 0x80;
  MACIO_INT_MODE  := 0x80000000;
  VIA_CUDA        := 1;
  SCSI1           := 2;
  SWIM3           := 3
|}.

(** The state with every field zero. *)
Definition gc_zero : GCState := mkGC 0 0 0 0 0.

End GC.

(** ** Symbolic 32-bit expressions over several values

    The comparison of [WordExpr], for expressions over up to four 32-bit
    values.  Bit [n] of the value [x] is the atom [4 * n + var_id x]. *)

Module WordExprN.
Import WordExpr.

Inductive var4 : Set := V0 | V1 | V2 | V3.

Definition var_id (x : var4) : Z :=
  match x with
  | V0 => 0
  | V1 => 1
  | V2 => 2
  | V3 => 3
  end.

Definition var_of (k : Z) : var4 :=
  match k mod 4 with
  | 0 => V0
  | 1 => V1
  | 2 => V2
  | _ => V3
  end.

Definition env4 (a b c d : Z) (x : var4) : Z :=
  match x with
  | V0 => a
  | V1 => b
  | V2 => c
  | V3 => d
  end.

Inductive wexpn : Set :=
| NVar (x : var4)
| NCst (c : Z)
| NAnd (a b : wexpn)
| NOr (a b : wexpn)
| NNot (a : wexpn)
| NShl (a : wexpn) (k : Z)
| NShr (a : wexpn) (k : Z).

Fixpoint wevaln (env : var4 -> Z) (e : wexpn) : Z :=
  match e with
  | NVar x => env x
  | NCst c => c
  | NAnd a b => Z.land (wevaln env a) (wevaln env b)
  | NOr a b => Z.lor (wevaln env a) (wevaln env b)
  | NNot a => Z.lnot (wevaln env a)
  | NShl a k => Z.shiftl (wevaln env a) k
  | NShr a k => Z.shiftr (wevaln env a) k
  end.

Definition bitsn (env : var4 -> Z) (k : Z) : bool :=
  Z.testbit (env (var_of k)) (k / 4).

Fixpoint wbitn (e : wexpn) (n : Z) : bform :=
  match e with
  | NVar x => BBit (4 * n + var_id x)
  | NCst c => BCst (Z.testbit c n)
  | NAnd a b => band (wbitn a n) (wbitn b n)
  | NOr a b => bor (wbitn a n) (wbitn b n)
  | NNot a => bneg (wbitn a n)
  | NShl a k => if n - k <? 0 then BCst false else wbitn a (n - k)
  | NShr a k => if n + k <? 0 then BCst false else wbitn a (n + k)
  end.

Fixpoint whin (e : wexpn) : option Z :=
  match e with
  | NVar _ => Some 32
  | NCst c => if 0 <=? c then Some (Z.log2 c + 1) else None
  | NAnd a b =>
      match whin a, whin b with
      | Some x, Some y => Some (Z.min x y)
      | Some x, None => Some x
      | None, Some y => Some y
      | None, None => None
      end
  | NOr a b =>
      match whin a, whin b with
      | Some x, Some y => Some (Z.max x y)
      | _, _ => None
      end
  | NNot _ => None
  | NShl a k => option_map (fun w => w + k) (whin a)
  | NShr a k => option_map (fun w => w - k) (whin a)
  end.

Definition fitsn (w : Z) (e : wexpn) : bool :=
  match whin e with
  | Some x => x <=? w
  | None => false
  end.

Definition wcheckn (e1 e2 : wexpn) : bool :=
  fitsn 32 e1 && fitsn 32 e2 &&
  forallb (fun n => beqb (wbitn e1 n) (wbitn e2 n)) lanes32.

End WordExprN.

(** ** Byte lanes *)

Module PciLanes.
Import Pci.

(** The byte offsets that an access of [s] bytes at offset [o] covers,
    wrapping around after offset 3. *)
Definition lanes (s o : Z) : list Z :=
  map (fun i => (o + Z.of_nat i) mod 4) (seq 0 (Z.to_nat s)).

Definition lanes_disjoint (s o s' o' : Z) : bool :=
  forallb (fun l => negb (existsb (Z.eqb l) (lanes s' o'))) (lanes s o).

(** The byte of the backing value at a byte offset. *)
Definition lane_byte (v o : Z) : Z :=
  pci_conv_rd_data v (mkAccessDetails 1 o PCI_CONFIG_READ).

End PciLanes.

(** ** The controller: base address register and register ranges *)

Module GCBus.
Import Bits GC.




(** The register numbers each subdevice is handed stay within its register
    file. *)
Definition dev_read_in_range (c : dev_read) : Prop :=
  match c with
  | scsi_0_read reg => 0 <= reg < 16
  | mace_read reg => 0 <= reg < 32
  | escc_read reg => 0 <= reg < 16
  | awacs_snd_ctrl_read offset _ => 0 <= offset < 256
  | viacuda_read reg => 0 <= reg < 16
  | nvram_read_byte addr => is_u32 addr
  | snd_out_dma_reg_read offset _ => 0 <= offset < 256
  end.

Definition dev_write_in_range (c : dev_write) : Prop :=
  match c with
  | scsi_0_write reg _ => 0 <= reg < 16
  | mace_write reg _ => 0 <= reg < 32
  | escc_write reg _ => 0 <= reg < 16
  | awacs_snd_ctrl_write offset _ _ => 0 <= offset < 256
  | viacuda_write reg _ => 0 <= reg < 16
  | nvram_write_byte addr _ => is_u32 addr
  | snd_out_dma_reg_write offset _ _ => 0 <= offset < 256
  end.


(** The three interrupt registers hold 32-bit values. *)
Definition int_state_u32 (gc : GCState) : Prop :=
  is_u32 (int_mask gc) /\ is_u32 (int_levels gc) /\ is_u32 (int_events gc).

Definition op_u32 (op : int_op) : Prop :=
  match op with
  | Acknowledge irq_id _ => is_u32 irq_id
  | SetMask value => is_u32 value
  | ClearEvents value => is_u32 value
  end.

Definition is_set_mask (op : int_op) : bool :=
  match op with
  | SetMask _ => true
  | _ => false
  end.

End GCBus.

(** ** The SCSI hard disk *)

Module ScsiHd.
Import Bits GC.

Definition HDD_SECTOR_SIZE : Z := 512.

(** Constants and macros of headers that are not among the sources: the
    enumerators of [ScsiCommand], [ScsiStatus], [ScsiSense], [ScsiMessage]
    and [ScsiError], and the big-endian dword read of memaccess.h (applied
    to a buffer and an index into it); they are parameters of the model. *)
Class ScsiConsts : Type := {
  TEST_UNIT_READY  : Z;
  REWIND           : Z;
  REQ_SENSE        : Z;
  INQUIRY          : Z;
  READ_6           : Z;
  READ_10          : Z;
  WRITE_6          : Z;
  WRITE_10         : Z;
  SEEK_6           : Z;
  MODE_SELECT_6    : Z;
  MODE_SENSE_6     : Z;
  READ_CAPACITY_10 : Z;
  GOOD             : Z;
  CHECK_CONDITION  : Z;
  ILLEGAL_REQ      : Z;
  COMMAND_COMPLETE : Z;
  NO_ERROR         : Z;
  READ_DWORD_BE_U  : (Z -> Z) -> Z -> Z
}.

(** The bus phases this file switches to. *)
Inductive ScsiPhase : Set := DATA_IN | DATA_OUT | STATUS.

(** The character arrays copied into the INQUIRY data. *)
Inductive info_field : Set := vendor_info | prod_info | rev_info.

Inductive hd_warning : Set :=
| unrecognized_command (op : Z)
| inappropriate_allocation_length (alloc_len : Z)
| mode_select_param_length (param_len : Z)
| nonzero_lba_for_pmi0.

(** What the disk does to the image file, to its buffer and to the bus. *)
Inductive hd_event : Set :=
| hdd_open
| hdd_seekg (pos : Z)
| hdd_read (n : Z)
| buf_memset
| buf_store (i v : Z)
| buf_memcpy (dst : Z) (src : info_field) (n : Z)
| buf_store_dword_be (i v : Z)
| switch_phase (p : ScsiPhase)
| hd_log (w : hd_warning).

(** The fields of the disk that this file uses; [post_xfer_action] tells
    whether the write-back action is installed. *)
Record HdState : Type := mkHd {
  cmd_buf          : Z -> Z;
  status           : Z;
  sense            : Z;
  pre_xfer_action  : bool;
  post_xfer_action : bool;
  cur_buf_cnt      : Z;
  incoming_size    : Z;
  bytes_out        : Z;
  msg_buf0         : Z;
  img_size         : Z;
  total_blocks     : Z
}.

Definition set_status (hd : HdState) (x : Z) : HdState :=
  mkHd (cmd_buf hd) x (sense hd) (pre_xfer_action hd) (post_xfer_action hd)
       (cur_buf_cnt hd) (incoming_size hd) (bytes_out hd) (msg_buf0 hd)
       (img_size hd) (total_blocks hd).

Definition set_sense (hd : HdState) (x : Z) : HdState :=
  mkHd (cmd_buf hd) (status hd) x (pre_xfer_action hd) (post_xfer_action hd)
       (cur_buf_cnt hd) (incoming_size hd) (bytes_out hd) (msg_buf0 hd)
       (img_size hd) (total_blocks hd).

Definition set_xfer_actions (hd : HdState) (pre post : bool) : HdState :=
  mkHd (cmd_buf hd) (status hd) (sense hd) pre post
       (cur_buf_cnt hd) (incoming_size hd) (bytes_out hd) (msg_buf0 hd)
       (img_size hd) (total_blocks hd).

Definition set_cur_buf_cnt (hd : HdState) (x : Z) : HdState :=
  mkHd (cmd_buf hd) (status hd) (sense hd) (pre_xfer_action hd)
       (post_xfer_action hd) x (incoming_size hd) (bytes_out hd)
       (msg_buf0 hd) (img_size hd) (total_blocks hd).

Definition set_incoming_size (hd : HdState) (x : Z) : HdState :=
  mkHd (cmd_buf hd) (status hd) (sense hd) (pre_xfer_action hd)
       (post_xfer_action hd) (cur_buf_cnt hd) x (bytes_out hd)
       (msg_buf0 hd) (img_size hd) (total_blocks hd).

Definition set_bytes_out (hd : HdState) (x : Z) : HdState :=
  mkHd (cmd_buf hd) (status hd) (sense hd) (pre_xfer_action hd)
       (post_xfer_action hd) (cur_buf_cnt hd) (incoming_size hd) x
       (msg_buf0 hd) (img_size hd) (total_blocks hd).

Definition set_msg_buf0 (hd : HdState) (x : Z) : HdState :=
  mkHd (cmd_buf hd) (status hd) (sense hd) (pre_xfer_action hd)
       (post_xfer_action hd) (cur_buf_cnt hd) (incoming_size hd)
       (bytes_out hd) x (img_size hd) (total_blocks hd).

Definition set_image (hd : HdState) (size blocks : Z) : HdState :=
  mkHd (cmd_buf hd) (status hd) (sense hd) (pre_xfer_action hd)
       (post_xfer_action hd) (cur_buf_cnt hd) (incoming_size hd)
       (bytes_out hd) (msg_buf0 hd) size blocks.

Section Disk.
Context {S : ScsiConsts}.

(** [st_size] is the size that [stat] reports, [None] when it fails. *)
Definition insert_image (hd : HdState) (st_size : option Z)
  : outcome (HdState * list hd_event) :=
  match st_size with
  | Some size =>
      Done (set_image hd size
              ((size + HDD_SECTOR_SIZE - 1) / HDD_SECTOR_SIZE),
            [hdd_open; hdd_seekg 0])
  | None =>
      Abort "ScsiHardDisk: could not determine file size using stat()"
  end.

Definition test_unit_ready (hd : HdState) : HdState * list hd_event * Z :=
  (hd, [switch_phase STATUS], NO_ERROR).

Definition req_sense (hd : HdState) (alloc_len : Z)
  : HdState * list hd_event * Z :=
  (hd,
   if negb (alloc_len =? 252)
   then [hd_log (inappropriate_allocation_length alloc_len)] else [],
   NO_ERROR).

Definition inquiry (hd : HdState) : outcome (HdState * list hd_event) :=
  let page_num := cmd_buf hd 2 in
  let alloc_len := cmd_buf hd 4 in
  if nonzero page_num then
    Abort "SCSI_CDROM: invalid page number in INQUIRY"
  else if 36 <=? alloc_len then
    Done (set_msg_buf0 (set_bytes_out hd 36) COMMAND_COMPLETE,
          [buf_store 0 0; buf_store 1 0x80; buf_store 2 2; buf_store 3 1;
           buf_store 4 0x1F; buf_store 5 0; buf_store 6 0; buf_store 7 0x18;
           buf_memcpy 8 vendor_info 8; buf_memcpy 16 prod_info 16;
           buf_memcpy 32 rev_info 4;
           switch_phase DATA_IN])
  else
    Done (hd, [hd_log (inappropriate_allocation_length alloc_len)]).

Definition mode_select_6 (hd : HdState) (param_len : Z)
  : HdState * list hd_event * Z :=
  if param_len =? 0 then (hd, [], 0)
  else (hd, [hd_log (mode_select_param_length param_len)], param_len).

Definition mode_sense_6 (hd : HdState) : HdState * list hd_event :=
  (hd, []).

Definition read_capacity_10 (hd : HdState)
  : outcome (HdState * list hd_event) :=
  let lba := READ_DWORD_BE_U (cmd_buf hd) 2 in
  if nonzero (Z.land (cmd_buf hd 1) 1) then
    Abort "SCSI-HD: RelAdr bit set in READ_CAPACITY_10"
  else if negb (nonzero (Z.land (cmd_buf hd 8) 1)) && nonzero lba then
    Done (set_sense (set_status hd CHECK_CONDITION) ILLEGAL_REQ,
          [hd_log nonzero_lba_for_pmi0; switch_phase STATUS])
  else
    let last_lba := u32 (total_blocks hd - 1) in
    let blk_len := HDD_SECTOR_SIZE in
    Done (set_msg_buf0 (set_cur_buf_cnt hd 8) COMMAND_COMPLETE,
          [buf_store_dword_be 0 last_lba; buf_store_dword_be 4 blk_len;
           switch_phase DATA_IN]).

Definition read (hd : HdState) (lba transfer_len cmd_len : Z)
  : HdState * list hd_event :=
  let transfer_size := transfer_len in
  let transfer_size :=
    if (cmd_len =? 6) && (transfer_len =? 0) then 256 else transfer_size in
  let transfer_size := u32 (transfer_size * HDD_SECTOR_SIZE) in
  let device_offset := u32 (lba * HDD_SECTOR_SIZE) in
  (set_msg_buf0 (set_cur_buf_cnt hd transfer_size) COMMAND_COMPLETE,
   [buf_memset; hdd_seekg device_offset; hdd_read transfer_size;
    switch_phase DATA_IN]).

Definition write (hd : HdState) (lba transfer_len cmd_len : Z)
  : HdState * list hd_event :=
  let transfer_size := transfer_len in
  let transfer_size :=
    if (cmd_len =? 6) && (transfer_len =? 0) then 256 else transfer_size in
  let transfer_size := u32 (transfer_size * HDD_SECTOR_SIZE) in
  let device_offset := u32 (lba * HDD_SECTOR_SIZE) in
  (set_xfer_actions (set_incoming_size hd transfer_size)
     (pre_xfer_action hd) true,
   [hdd_seekg device_offset]).

Definition seek (hd : HdState) (lba : Z) : HdState * list hd_event :=
  let device_offset := u32 (lba * HDD_SECTOR_SIZE) in
  (hd, [hdd_seekg device_offset]).

Definition rewind (hd : HdState) : HdState * list hd_event :=
  (hd, [hdd_seekg 0]).

(** The logical block address of a 6-byte, resp. 10-byte, command and the
    transfer length of a 10-byte command, as [process_command] computes
    them from the command bytes. *)
Definition lba_6 (cmd : Z -> Z) : Z :=
  u32 (Z.shiftl (Z.land (cmd 1) 0x1F) 16 + Z.shiftl (cmd 2) 8 + cmd 3).

Definition lba_10 (cmd : Z -> Z) : Z :=
  u32 (Z.shiftl (cmd 2) 24 + Z.shiftl (cmd 3) 16 + Z.shiftl (cmd 4) 8
       + cmd 5).

Definition transfer_len_10 (cmd : Z -> Z) : Z :=
  Z.land (Z.shiftl (cmd 7) 8 + cmd 8) 0xFFFF.

Definition process_command (hd0 : HdState)
  : outcome (HdState * list hd_event) :=
  let hd := set_xfer_actions hd0 false false in
  (* assume successful command execution *)
  let hd := set_status hd GOOD in
  let cmd := cmd_buf hd in
  if negb (cmd 0 =? 0) && negb (cmd 0 =? 8) && negb (cmd 0 =? 0xA)
     && negb (cmd 0 =? 0x28) && negb (cmd 0 =? 0x2A)
     && negb (cmd 0 =? 0x25)
  then Abort "SCSI-HD: untested command"
  else if cmd 0 =? TEST_UNIT_READY then Done (fst (test_unit_ready hd))
  else if cmd 0 =? REWIND then Done (rewind hd)
  else if cmd 0 =? REQ_SENSE then Done (fst (req_sense hd (cmd 4)))
  else if cmd 0 =? INQUIRY then inquiry hd
  else if cmd 0 =? READ_6 then Done (read hd (lba_6 cmd) (cmd 4) 6)
  else if cmd 0 =? READ_10 then
    Done (read hd (lba_10 cmd) (transfer_len_10 cmd) 10)
  else if cmd 0 =? WRITE_6 then Done (write hd (lba_6 cmd) (cmd 4) 6)
  else if cmd 0 =? WRITE_10 then
    let r := write hd (lba_10 cmd) (transfer_len_10 cmd) 10 in
    Done (fst r, snd r ++ [switch_phase DATA_OUT])
  else if cmd 0 =? SEEK_6 then Done (seek hd (lba_6 cmd))
  else if cmd 0 =? MODE_SELECT_6 then Done (fst (mode_select_6 hd (cmd 4)))
  else if cmd 0 =? MODE_SENSE_6 then Done (mode_sense_6 hd)
  else if cmd 0 =? READ_CAPACITY_10 then read_capacity_10 hd
  else Done (hd, [hd_log (unrecognized_command (cmd 0))]).

(** The opcodes that pass the check at the head of [process_command]. *)
Definition tested_opcodes : list Z := [0; 8; 0xA; 0x28; 0x2A; 0x25].

(** The bytes of the command buffer. *)
Definition cmd_bytes (hd : HdState) : Prop :=
  forall i, 0 <= cmd_buf hd i < 256.

(** The enumerators that precede [READ_6], resp. [READ_10], among the case
    labels are different from it. *)
Definition read_6_label : Prop :=
  READ_6 = 8 /\ TEST_UNIT_READY <> 8 /\ REWIND <> 8 /\ REQ_SENSE <> 8 /\
  INQUIRY <> 8.

Definition read_10_label : Prop :=
  READ_10 = 0x28 /\ TEST_UNIT_READY <> 0x28 /\ REWIND <> 0x28 /\
  REQ_SENSE <> 0x28 /\ INQUIRY <> 0x28 /\ READ_6 <> 0x28.

End Disk.

(** One assignment of the constants (the opcodes of the SCSI command set),
    to run the model on concrete inputs. *)
Definition sample_scsi : ScsiConsts := {|
  TEST_UNIT_READY  := 0x00;
  REWIND           := 0x01;
  REQ_SENSE        := 0x03;
  INQUIRY          := 0x12;
  READ_6           := 0x08;
  READ_10          := 0x28;
  WRITE_6          := 0x0A;
  WRITE_10         := 0x2A;
  SEEK_6           := 0x0B;
  MODE_SELECT_6    := 0x15;
  MODE_SENSE_6     := 0x1A;
  READ_CAPACITY_10 := 0x25;
  GOOD             := 0;
  CHECK_CONDITION  := 2;
  ILLEGAL_REQ      := 5;
  COMMAND_COMPLETE := 0;
  NO_ERROR         := 0;
  READ_DWORD_BE_U  := fun buf i =>
    Z.shiftl (buf i) 24 + Z.shiftl (buf (i + 1)) 16
    + Z.shiftl (buf (i + 2)) 8 + buf (i + 3)
|}.

(** A command buffer holding the given bytes, zero beyond them. *)
Definition cmd_of (bytes : list Z) : Z -> Z :=
  fun i => if i <? 0 then 0 else nth (Z.to_nat i) bytes 0.

Definition hd_with (bytes : list Z) (blocks : Z) : HdState :=
  mkHd (cmd_of bytes) 0 0 false false 0 0 0 0 (blocks * 512) blocks.

End ScsiHd.

(** ** The machine ID registers *)

Module MachineId.

(** The four bytes of the Nubus machine ID register, as the constructor of
    [NubusMacID] fills them for the 16-bit [id]. *)
Definition NubusMacID (id : Z) : list Z :=
  [0xA5; 0x5A; Z.land (Z.shiftr id 8) 0xFF; Z.land id 0xFF].

Definition nubus_read (dev : list Z) (reg_start offset size : Z) : Z :=
  if offset <? 4 then nth (Z.to_nat offset) dev 0 else 0.

(* not writable *)
Definition nubus_write (dev : list Z) (reg_start offset value size : Z)
  : list Z := dev.

(** The Gossamer machine ID register holds the 16-bit [id] itself. *)
Definition gossamer_read (id : Z) (reg_start offset size : Z) : Z :=
  if (offset =? 0) && (size =? 2) then id else 0.

(* not writable *)
Definition gossamer_write (id : Z) (reg_start offset value size : Z) : Z :=
  id.

End MachineId.

(** ** The ADB keyboard *)

Module AdbKbd.
Import GC.

(** The fields of the ADB device that the keyboard sets. *)
Record AdbKeyboard : Set := mkKbd {
  my_addr        : Z;
  dev_handler_id : Z;
  exc_event_flag : Z;
  srq_flag       : Z;
  got_collision  : bool
}.

Section Keyboard.
(** The default address of keyboards, a constant of a header that is not
    among the sources. *)
Variable ADB_ADDR_KBD : Z.

Definition reset (kb : AdbKeyboard) : AdbKeyboard :=
  mkKbd ADB_ADDR_KBD
        2 (* Extended ADB keyboard *)
        2
        1 (* enable service requests *)
        (got_collision kb).

Definition get_register_0 (kb : AdbKeyboard) : bool := false.

Definition set_register_2 (kb : AdbKeyboard) : AdbKeyboard := kb.

(** [input_count] and [in_data] are what the host hands over; the second
    component is the handler ID of the warning, if one is logged. *)
Definition set_register_3 (kb : AdbKeyboard) (input_count : Z)
  (in_data : Z -> Z) : AdbKeyboard * option Z :=
  if input_count <? 2 then (kb, None) (* ensure we got enough data *)
  else
    match in_data 1 with
    | 0 =>
        (mkKbd (Z.land (in_data 0) 0xF) (dev_handler_id kb)
               (exc_event_flag kb)
               (if nonzero (Z.land (in_data 0) 0x20) then 1 else 0)
               (got_collision kb),
         None)
    | 1 | 2 =>
        (mkKbd (my_addr kb) (in_data 1) (exc_event_flag kb) (srq_flag kb)
               (got_collision kb),
         None)
    | 3 => (* extended keyboard protocol isn't supported yet *)
        (kb, None)
    | 0xFE => (* move to a new address if there was no collision *)
        if negb (got_collision kb)
        then (mkKbd (Z.land (in_data 0) 0xF) (dev_handler_id kb)
                    (exc_event_flag kb) (srq_flag kb) (got_collision kb),
              None)
        else (kb, None)
    | other => (kb, Some other)
    end.

(** A run of register 3 writes, each given by its input count and data. *)
Fixpoint listen_3 (kb : AdbKeyboard) (inputs : list (Z * (Z -> Z)))
  : AdbKeyboard :=
  match inputs with
  | [] => kb
  | (count, data) :: rest => listen_3 (fst (set_register_3 kb count data)) rest
  end.

End Keyboard.

(** A 4-bit bus address, one of the two handler IDs of a keyboard, and a
    service request flag that is 0 or 1. *)
Definition kbd_ok (kb : AdbKeyboard) : Prop :=
  0 <= my_addr kb < 16 /\ In (dev_handler_id kb) [1; 2] /\
  In (srq_flag kb) [0; 1].

End AdbKbd.

(** * Properties *)

(** ** Soundness of the bit-by-bit comparison *)

Module WordExprFacts.
Import Bits WordExpr.

Lemma is_u32_high_bits v n : is_u32 v -> 32 <= n -> Z.testbit v n = false.
Proof.
  intros [Hlo Hhi] Hn.
  destruct (Z.eq_dec v 0) as [->|Hnz]; [apply Z.testbit_0_l|].
  apply Z.bits_above_log2; [exact Hlo|].
  apply Z.lt_le_trans with 32; [|exact Hn].
  apply Z.log2_lt_pow2; lia.
Qed.

Lemma high_bits_is_u32 x :
  (forall n, 32 <= n -> Z.testbit x n = false) -> is_u32 x.
Proof.
  intros H.
  assert (Hx : x = Z.land x (Z.ones 32)).
  { apply Z.bits_inj'. intros n Hn. rewrite Z.land_spec.
    destruct (Z_lt_le_dec n 32) as [Hlt|Hge].
    - rewrite Z.ones_spec_low by lia. now rewrite andb_true_r.
    - rewrite H by exact Hge. reflexivity. }
  rewrite Hx, Z.land_ones by lia.
  unfold is_u32. apply Z.mod_pos_bound. lia.
Qed.

Lemma bden_band f p q : bden f (band p q) = bden f p && bden f q.
Proof.
  destruct p as [[|]| | | |], q as [[|]| | | |]; simpl;
    rewrite ?andb_true_r, ?andb_false_r; reflexivity.
Qed.

Lemma bden_bor f p q : bden f (bor p q) = bden f p || bden f q.
Proof.
  destruct p as [[|]| | | |], q as [[|]| | | |]; simpl;
    rewrite ?orb_true_r, ?orb_false_r; reflexivity.
Qed.

Lemma bden_bneg f p : bden f (bneg p) = negb (bden f p).
Proof. destruct p; reflexivity. Qed.

Lemma wbit_sound v e :
  forall n, 0 <= n -> bden (Z.testbit v) (wbit e n) = Z.testbit (weval v e) n.
Proof.
  induction e as [|c|a IHa b IHb|a IHa b IHb|a IHa|a IHa k|a IHa k];
    intros n Hn; simpl.
  - reflexivity.
  - reflexivity.
  - now rewrite bden_band, Z.land_spec, IHa, IHb.
  - now rewrite bden_bor, Z.lor_spec, IHa, IHb.
  - now rewrite bden_bneg, Z.lnot_spec, IHa.
  - rewrite Z.shiftl_spec by exact Hn.
    destruct (Z.ltb_spec (n - k) 0) as [Hneg|Hpos].
    + now rewrite Z.testbit_neg_r.
    + now apply IHa.
  - rewrite Z.shiftr_spec by exact Hn.
    destruct (Z.ltb_spec (n + k) 0) as [Hneg|Hpos].
    + now rewrite Z.testbit_neg_r.
    + now apply IHa.
Qed.

Lemma beqb_sound f p :
  forall q, beqb p q = true -> bden f p = bden f q.
Proof.
  induction p as [a|n|p1 IH1 p2 IH2|p1 IH1 p2 IH2|p1 IH1];
    intros [b|m|q1 q2|q1 q2|q1]; simpl; try discriminate; intros H.
  - now apply eqb_prop.
  - apply Z.eqb_eq in H. now subst.
  - apply andb_prop in H as [H1 H2]. now rewrite (IH1 _ H1), (IH2 _ H2).
  - apply andb_prop in H as [H1 H2]. now rewrite (IH1 _ H1), (IH2 _ H2).
  - now rewrite (IH1 _ H).
Qed.

Lemma whi_sound v e :
  is_u32 v ->
  forall w n, whi e = Some w -> 0 <= n -> w <= n ->
    Z.testbit (weval v e) n = false.
Proof.
  intros Hv.
  induction e as [|c|a IHa b IHb|a IHa b IHb|a IHa|a IHa k|a IHa k];
    simpl; intros w n Hw Hn Hwn.
  - injection Hw as <-. now apply is_u32_high_bits.
  - destruct (Z.leb_spec 0 c) as [Hc|Hc]; [|discriminate].
    injection Hw as <-.
    apply Z.bits_above_log2; lia.
  - rewrite Z.land_spec.
    destruct (whi a) as [x|], (whi b) as [y|]; try discriminate;
      injection Hw as <-.
    + destruct (Z.min_spec x y) as [[_ Hm]|[_ Hm]]; rewrite Hm in Hwn.
      * rewrite (IHa x n) by (auto; lia). reflexivity.
      * rewrite (IHb y n) by (auto; lia). apply andb_false_r.
    + rewrite (IHa x n) by (auto; lia). reflexivity.
    + rewrite (IHb y n) by (auto; lia). apply andb_false_r.
  - rewrite Z.lor_spec.
    destruct (whi a) as [x|], (whi b) as [y|]; try discriminate.
    injection Hw as <-.
    rewrite (IHa x n), (IHb y n) by (auto; lia). reflexivity.
  - discriminate.
  - destruct (whi a) as [x|]; [|discriminate]. injection Hw as <-.
    rewrite Z.shiftl_spec by exact Hn.
    destruct (Z_lt_le_dec (n - k) 0) as [Hneg|Hpos].
    + now apply Z.testbit_neg_r.
    + apply (IHa x); [reflexivity|exact Hpos|lia].
  - destruct (whi a) as [x|]; [|discriminate]. injection Hw as <-.
    rewrite Z.shiftr_spec by exact Hn.
    destruct (Z_lt_le_dec (n + k) 0) as [Hneg|Hpos].
    + now apply Z.testbit_neg_r.
    + apply (IHa x); [reflexivity|exact Hpos|lia].
Qed.

Lemma fits32_sound v e n :
  is_u32 v -> fits32 e = true -> 32 <= n -> Z.testbit (weval v e) n = false.
Proof.
  unfold fits32. intros Hv He Hn.
  destruct (whi e) as [w|] eqn:Hw; [|discriminate].
  apply Z.leb_le in He.
  apply (whi_sound v e Hv w); [exact Hw|lia|lia].
Qed.

Lemma In_lanes32 n : 0 <= n < 32 -> In n lanes32.
Proof.
  intros Hn. unfold lanes32. apply in_map_iff.
  exists (Z.to_nat n). split; [lia|]. apply in_seq. lia.
Qed.

Lemma wcheck_sound v e1 e2 :
  is_u32 v -> wcheck e1 e2 = true -> weval v e1 = weval v e2.
Proof.
  unfold wcheck. intros Hv H.
  apply andb_prop in H as [H Hbits]. apply andb_prop in H as [H1 H2].
  rewrite forallb_forall in Hbits.
  apply Z.bits_inj'. intros n Hn.
  destruct (Z_lt_le_dec n 32) as [Hlt|Hge].
  - rewrite <- !wbit_sound by exact Hn.
    apply beqb_sound, Hbits, In_lanes32. lia.
  - now rewrite !fits32_sound.
Qed.

Lemma fits32_is_u32 v e : is_u32 v -> fits32 e = true -> is_u32 (weval v e).
Proof.
  intros Hv He. apply high_bits_is_u32. intros n Hn.
  now apply fits32_sound.
Qed.

End WordExprFacts.

(** Reading a term built over the backing value [v] as a [wexp]. *)
Ltac reify_word v t :=
  lazymatch t with
  | v => constr:(WordExpr.WVar)
  | Z.land ?a ?b =>
      let a' := reify_word v a in
      let b' := reify_word v b in constr:(WordExpr.WAnd a' b')
  | Z.lor ?a ?b =>
      let a' := reify_word v a in
      let b' := reify_word v b in constr:(WordExpr.WOr a' b')
  | Z.lnot ?a => let a' := reify_word v a in constr:(WordExpr.WNot a')
  | Z.shiftl ?a ?k => let a' := reify_word v a in constr:(WordExpr.WShl a' k)
  | Z.shiftr ?a ?k => let a' := reify_word v a in constr:(WordExpr.WShr a' k)
  | _ => constr:(WordExpr.WCst t)
  end.

(** Proves [l = r] for two such terms over a 32-bit [v]. *)
Ltac word_eq v Hv :=
  lazymatch goal with
  | |- ?l = ?r =>
      let l' := reify_word v l in
      let r' := reify_word v r in
      change (WordExpr.weval v l' = WordExpr.weval v r');
      apply (WordExprFacts.wcheck_sound v l' r' Hv);
      vm_compute; reflexivity
  end.

(** ** The byte-lane codec *)

Module PciFacts.
Import Bits Pci.

Ltac unfold_swaps :=
  cbv beta iota delta [ROTL_32 ROTR_32 BYTESWAP_32 BYTESWAP_16 u32].

Lemma BYTESWAP_32_involutive v : is_u32 v -> BYTESWAP_32 (BYTESWAP_32 v) = v.
Proof. intros Hv. unfold_swaps. word_eq v Hv. Qed.

Lemma BYTESWAP_32_range v : is_u32 v -> is_u32 (BYTESWAP_32 v).
Proof.
  intros Hv. unfold_swaps.
  lazymatch goal with
  | |- is_u32 ?t =>
      let e := reify_word v t in
      change (is_u32 (WordExpr.weval v e));
      apply (WordExprFacts.fits32_is_u32 v e Hv); vm_compute; reflexivity
  end.
Qed.

(** One lane selector at a time: the switch of the reader followed by the
    switch of the writer. *)
Lemma lane_round_trip v d sel :
  is_u32 v ->
  lane_sel d = sel -> In sel lane_sels ->
  pci_conv_wr_data v (pci_conv_rd_data v d) d = v.
Proof.
  intros Hv Hsel Hin. unfold pci_conv_wr_data, pci_conv_rd_data.
  rewrite Hsel. unfold lane_sels in Hin. simpl in Hin.
  repeat (destruct Hin as [<-|Hin]; [unfold_swaps; word_eq v Hv|]).
  contradiction.
Qed.

Lemma lane_sel_value s o f :
  In s [1; 2; 4] -> In o [0; 1; 2; 3] ->
  lane_sel (mkAccessDetails s o f) = 4 * s + o /\
  In (4 * s + o) lane_sels.
Proof.
  simpl. intros Hs Ho.
  repeat (destruct Hs as [<-|Hs]; [|]); try contradiction;
    repeat (destruct Ho as [<-|Ho]; [|]); try contradiction;
    vm_compute; tauto.
Qed.

(** C1. Round trip of the byte-lane codec: for every size in {1,2,4}, every
    byte offset in {0,1,2,3} and every 32-bit backing value [v], writing back
    what was read with the same size and offset (whatever the direction
    flags of the two descriptors) gives [v] again: the addressed lanes are
    reproduced and the other bytes are unchanged. *)
Theorem codec_round_trip (v s o fr fw : Z) :
  is_u32 v -> In s [1; 2; 4] -> In o [0; 1; 2; 3] ->
  pci_conv_wr_data v (pci_conv_rd_data v (mkAccessDetails s o fr))
                   (mkAccessDetails s o fw) = v.
Proof.
  intros Hv Hs Ho.
  destruct (lane_sel_value s o fw Hs Ho) as [Hsel Hin].
  assert (Hrd : pci_conv_rd_data v (mkAccessDetails s o fr)
                = pci_conv_rd_data v (mkAccessDetails s o fw)) by reflexivity.
  rewrite Hrd. exact (lane_round_trip v _ _ Hv Hsel Hin).
Qed.

Lemma codec_round_trip_witness :
  pci_conv_wr_data 0xAABBCCDD
    (pci_conv_rd_data 0xAABBCCDD (mkAccessDetails 2 3 PCI_CONFIG_READ))
    (mkAccessDetails 2 3 PCI_CONFIG_WRITE) = 0xAABBCCDD.
Proof.
  apply (codec_round_trip 0xAABBCCDD 2 3 PCI_CONFIG_READ PCI_CONFIG_WRITE).
  - unfold is_u32. lia.
  - simpl. tauto.
  - simpl. tauto.
Defined.

(** C2, as stated, fails on the code: the 4-byte read at offset 1 of
    0xAABBCCDD is not 0xBBCCDDAA. *)
Lemma dword_read_is_swapped_rotation :
  ~ (pci_conv_rd_data 0xAABBCCDD (mkAccessDetails 2 3 PCI_CONFIG_READ)
       = 0xAADD /\
     pci_conv_rd_data 0xAABBCCDD (mkAccessDetails 4 1 PCI_CONFIG_READ)
       = 0xBBCCDDAA).
Proof. intros [_ H]. vm_compute in H. discriminate H. Qed.

(** C2 (amended). For the backing value 0xAABBCCDD a 2-byte read at offset 3
    returns 0xAADD (the byte at offset 3, then the wrapped byte at offset 0),
    and a 4-byte read at offset 1 returns 0xCCBBAADD: the bytes at offsets
    1, 2, 3, 0, that is the left rotation by 8 of the byte-swapped value
    0xDDCCBBAA. *)
Theorem wrap_example :
  pci_conv_rd_data 0xAABBCCDD (mkAccessDetails 2 3 PCI_CONFIG_READ) = 0xAADD /\
  pci_conv_rd_data 0xAABBCCDD (mkAccessDetails 4 1 PCI_CONFIG_READ)
    = 0xCCBBAADD /\
  BYTESWAP_32 0xAABBCCDD = 0xDDCCBBAA /\
  ROTL_32 0xDDCCBBAA 8 = 0xCCBBAADD.
Proof. repeat split; vm_compute; reflexivity. Qed.

Lemma rd_sentinel v d :
  ~ In (lane_sel d) lane_sels -> pci_conv_rd_data v d = 0xFFFFFFFF.
Proof.
  unfold pci_conv_rd_data. generalize (lane_sel d). intros sel H.
  destruct sel as [|p|p]; try reflexivity.
  do 6 (try (destruct p as [p|p|]); try reflexivity);
    exfalso; apply H; unfold lane_sels; simpl; tauto.
Qed.

Lemma wr_sentinel v1 v2 d :
  ~ In (lane_sel d) lane_sels -> pci_conv_wr_data v1 v2 d = 0xFFFFFFFF.
Proof.
  unfold pci_conv_wr_data. generalize (lane_sel d). intros sel H.
  destruct sel as [|p|p]; try reflexivity.
  do 6 (try (destruct p as [p|p|]); try reflexivity);
    exfalso; apply H; unfold lane_sels; simpl; tauto.
Qed.

(** With an offset in 0..3 the selector is [4 * size + offset]. *)
Lemma lane_sel_aligned d :
  0 <= offset d <= 3 -> lane_sel d = 4 * size d + offset d.
Proof.
  intros Ho. unfold lane_sel.
  rewrite Z.shiftl_mul_pow2 by lia.
  assert (Hdis : Z.land (size d * 2 ^ 2) (offset d) = 0).
  { apply Z.bits_inj'. intros n Hn. rewrite Z.land_spec, Z.bits_0.
    destruct (Z_lt_le_dec n 2) as [Hlt|Hge].
    - rewrite Z.mul_pow2_bits_low by exact Hlt. reflexivity.
    - assert (Hb : Z.testbit (offset d) n = false).
      { destruct (Z.eq_dec (offset d) 0) as [->|Hnz];
          [apply Z.testbit_0_l|].
        apply Z.bits_above_log2; [lia|].
        apply Z.lt_le_trans with 2; [|exact Hge].
        apply Z.log2_lt_pow2; lia. }
      rewrite Hb. apply andb_false_r. }
  rewrite <- (Z.lxor_lor _ _ Hdis), <- (Z.add_nocarry_lxor _ _ Hdis). lia.
Qed.

(** C7, as stated, fails on the code: size 1 at offset 4 is outside the
    twelve valid combinations, yet its selector is 0x04 and the reader
    returns the low byte. *)
Lemma offset_above_three_aliases_lane :
  ~ (forall v1 v2 d,
        wf_details d ->
        ~ (In (size d) [1; 2; 4] /\ In (offset d) [0; 1; 2; 3]) ->
        pci_conv_rd_data v1 d = 0xFFFFFFFF /\
        pci_conv_wr_data v1 v2 d = 0xFFFFFFFF).
Proof.
  intros H.
  destruct (H 0xAABBCCDD 0 (mkAccessDetails 1 4 PCI_CONFIG_READ))
    as [Hrd _].
  - unfold wf_details, is_u8, PCI_CONFIG_READ. simpl. lia.
  - simpl. intros [_ Ho]. lia.
  - vm_compute in Hrd. discriminate Hrd.
Qed.

(** C7 (amended). Both functions are total, and they return the all-ones
    value 0xFFFFFFFF whenever the selector [size << 2 | offset] is none of
    the twelve case labels; this is so in particular for every size other
    than 1, 2 and 4 at an offset in 0..3. *)
Theorem codec_sentinel (v1 v2 : Z) (d : AccessDetails) :
  ~ In (lane_sel d) lane_sels \/
  (0 <= size d /\ 0 <= offset d <= 3 /\ ~ In (size d) [1; 2; 4]) ->
  pci_conv_rd_data v1 d = 0xFFFFFFFF /\
  pci_conv_wr_data v1 v2 d = 0xFFFFFFFF.
Proof.
  intros H.
  assert (Hsel : ~ In (lane_sel d) lane_sels).
  { destruct H as [H|(Hs & Ho & Hn)]; [exact H|].
    rewrite lane_sel_aligned by exact Ho.
    unfold lane_sels. cbn [In] in *. lia. }
  split; [apply rd_sentinel|apply wr_sentinel]; exact Hsel.
Qed.

Lemma codec_sentinel_witness :
  pci_conv_rd_data 0xAABBCCDD (mkAccessDetails 3 1 PCI_CONFIG_READ)
    = 0xFFFFFFFF /\
  pci_conv_wr_data 0xAABBCCDD 0x11 (mkAccessDetails 3 1 PCI_CONFIG_READ)
    = 0xFFFFFFFF.
Proof.
  apply (codec_sentinel 0xAABBCCDD 0x11 (mkAccessDetails 3 1 PCI_CONFIG_READ)).
  right. simpl. lia.
Defined.

End PciFacts.

(** ** The controller *)

Module GCFacts.
Import Bits GC.

Lemma nonzero_true x : x <> 0 -> nonzero x = true.
Proof. intros H. unfold nonzero. now apply negb_true_iff, Z.eqb_neq. Qed.

Lemma nonzero_false x : x = 0 -> nonzero x = false.
Proof. intros ->. reflexivity. Qed.

Lemma land_lnot_u32 a m : Z.land (Z.land a m) (u32 (Z.lnot m)) = 0.
Proof.
  unfold u32. apply Z.bits_inj'. intros n Hn.
  rewrite !Z.land_spec, Z.lnot_spec, Z.bits_0 by exact Hn.
  destruct (Z.testbit m n); simpl.
  - now rewrite andb_false_r.
  - now rewrite andb_false_r.
Qed.

Section ControllerFacts.
Context {K : MacioConsts}.

Lemma run_app gc ops1 :
  forall ops2,
    run gc (ops1 ++ ops2) = (gc' <- run gc ops1 ;; run gc' ops2).
Proof.
  revert gc. induction ops1 as [|op ops1 IH]; intros gc ops2; simpl.
  - reflexivity.
  - destruct (step gc op) as [gc1|msg]; simpl; [apply IH|reflexivity].
Qed.

Lemma ack_int_legacy gc irq_id line :
  Z.land (int_mask gc) MACIO_INT_MODE <> 0 ->
  exists gc' raised,
    ack_int gc irq_id line = Done (gc', raised) /\
    int_mask gc' = int_mask gc /\
    int_events gc' = Z.land (Z.lor (int_events gc) irq_id) (int_mask gc) /\
    raised = nonzero (int_events gc').
Proof.
  intros Hmode. unfold ack_int. rewrite (nonzero_true _ Hmode).
  destruct (nonzero line); eexists; eexists; repeat split.
Qed.

Lemma ack_int_remasked gc irq_id line gc' raised :
  ack_int gc irq_id line = Done (gc', raised) -> remasked gc'.
Proof.
  unfold ack_int.
  destruct (nonzero (Z.land (int_mask gc) MACIO_INT_MODE)); [|discriminate].
  intros H. injection H as <- _. unfold remasked.
  destruct (nonzero line); simpl; apply land_lnot_u32.
Qed.

(** C3. Re-masking invariant: whatever sequence of acknowledge, set-mask and
    clear-events operations ran before (from any state, the initial one
    included), an acknowledge in 68k emulation mode completes and leaves
    [events & ~mask == 0]. *)
Theorem remasking_invariant
  (gc0 gc : GCState) (ops : list int_op) (irq_id line : Z) :
  run gc0 ops = Done gc ->
  Z.land (int_mask gc) MACIO_INT_MODE <> 0 ->
  exists gc',
    run gc0 (ops ++ [Acknowledge irq_id line]) = Done gc' /\ remasked gc'.
Proof.
  intros Hrun Hmode.
  destruct (ack_int_legacy gc irq_id line Hmode) as (gc' & r & Hack & _).
  exists gc'. split.
  - rewrite run_app, Hrun. simpl. rewrite Hack. reflexivity.
  - exact (ack_int_remasked _ _ _ _ _ Hack).
Qed.

Lemma write_int_mask gc value size :
  int_space MIO_INT_MASK1 ->
  write gc MIO_INT_MASK1 value size
  = Done (set_int_mask gc (BYTESWAP_32 value), None, []).
Proof.
  intros [H1 H2]. unfold write.
  now rewrite (nonzero_false _ H1), (nonzero_false _ H2), Z.eqb_refl.
Qed.

Lemma read_int_mask gc size :
  int_space MIO_INT_MASK1 ->
  read gc MIO_INT_MASK1 size
  = Done (gc, Returns (BYTESWAP_32 (int_mask gc)), []).
Proof.
  intros [H1 H2]. unfold read.
  now rewrite (nonzero_false _ H1), (nonzero_false _ H2), Z.eqb_refl.
Qed.

(** C4. Setting the mask is not retroactive: a write to the mask register
    replaces the mask and leaves events and levels (and the rest of the
    state) as they were; so after it [events & ~mask == 0] can fail. *)
Theorem set_mask_not_retroactive :
  int_space MIO_INT_MASK1 ->
  (forall gc value size,
      exists gc',
        write gc MIO_INT_MASK1 value size = Done (gc', None, []) /\
        int_mask gc' = BYTESWAP_32 value /\
        int_events gc' = int_events gc /\
        int_levels gc' = int_levels gc /\
        nvram_addr_hi gc' = nvram_addr_hi gc /\
        base_addr gc' = base_addr gc) /\
  (exists gc value gc',
      remasked gc /\
      write gc MIO_INT_MASK1 value 4 = Done (gc', None, []) /\
      ~ remasked gc').
Proof.
  intros Hsp. split.
  - intros gc value size. eexists. split; [now apply write_int_mask|].
    repeat split.
  - exists (mkGC 0 0x80001000 0 0x1000 0), 0x80. eexists.
    split; [reflexivity|]. split; [now apply write_int_mask|].
    unfold remasked. simpl. vm_compute. discriminate.
Qed.

Ltac split_ifs :=
  repeat match goal with
         | |- context [if ?c then _ else _] => destruct c
         end.

Ltac by_subdev x :=
  destruct x as [|p|p];
  [..|do 5 (try (destruct p as [p|p|]))|].

Lemma read_route_nvram gc offset size :
  dev_space offset -> subdev_of offset = 0xF ->
  read_route gc offset size
  = Some (nvram_read_byte
            (u32 (Z.shiftl (nvram_addr_hi gc) 5
                  + Z.land (Z.shiftr offset 4) 0x1F))).
Proof.
  unfold dev_space, subdev_of, read_route, read. intros Hw Hs.
  now rewrite (nonzero_true _ Hw), Hs.
Qed.

(** C5 (amended). Routing determinism: the call that [read] and [write]
    forward for an offset (the subdevice and the register or byte address
    it is given) is the same in any two states of the controller, that is
    after any history, except for the NVRAM data registers (subdevice 0xF of
    the device register space), whose byte address also takes the high
    address bits latched by an earlier write to subdevice 0xD; for these
    the call is the same whenever the latched bits are. *)
Theorem routing_determinism (gc gc' : GCState) (offset value size : Z) :
  nvram_addr_hi gc = nvram_addr_hi gc' \/
  ~ (dev_space offset /\ subdev_of offset = 0xF) ->
  read_route gc offset size = read_route gc' offset size /\
  write_route gc offset value size = write_route gc' offset value size.
Proof.
  intros H.
  assert (Hhi : nonzero (Z.land offset 0x10000) = true ->
                subdev_of offset = 0xF ->
                nvram_addr_hi gc = nvram_addr_hi gc').
  { intros Hw Hs. destruct H as [H|H]; [exact H|]. exfalso. apply H.
    split; [|exact Hs]. unfold dev_space. intros Hz.
    rewrite (nonzero_false _ Hz) in Hw. discriminate Hw. }
  clear H. unfold read_route, write_route, read, write.
  fold (subdev_of offset).
  destruct (nonzero (Z.land offset 0x10000)).
  - specialize (Hhi eq_refl).
    by_subdev (subdev_of offset); split_ifs;
      try (split; reflexivity).
    rewrite (Hhi eq_refl). split; reflexivity.
  - clear Hhi.
    destruct (nonzero (Z.land offset 0x8000)).
    + by_subdev (subdev_of offset); split; reflexivity.
    + split_ifs; split; reflexivity.
Qed.

(** C6. The ESCC is reached through two addressing schemes: in the device
    register space, subdevice 2 with [offset & 0xFF == 5] is decoded with
    the compact index [(offset >> 1) & 0xF], and subdevice 2 with
    [offset & 0xFF == 20] falls through to the extended index
    [(offset >> 4) & 0xF]; reads and writes alike. *)
Theorem escc_dual_addressing (gc : GCState) (off_c off_x value size : Z) :
  dev_space off_c -> subdev_of off_c = 2 -> Z.land off_c 0xFF = 5 ->
  dev_space off_x -> subdev_of off_x = 2 -> Z.land off_x 0xFF = 20 ->
  read gc off_c size
    = Done (gc, ReturnsFrom (escc_read (Z.land (Z.shiftr off_c 1) 0xF)), []) /\
  write gc off_c value size
    = Done (gc, Some (escc_write (Z.land (Z.shiftr off_c 1) 0xF) value), []) /\
  read gc off_x size
    = Done (gc, ReturnsFrom (escc_read (Z.land (Z.shiftr off_x 4) 0xF)), []) /\
  write gc off_x value size
    = Done (gc, Some (escc_write (Z.land (Z.shiftr off_x 4) 0xF) value), []).
Proof.
  unfold dev_space, subdev_of. intros Hwc Hsc Hc Hwx Hsx Hx.
  unfold read, write.
  rewrite (nonzero_true _ Hwc), (nonzero_true _ Hwx), Hsc, Hsx, Hc, Hx.
  repeat split.
Qed.

Lemma read_unhandled gc offset size :
  unhandled_read offset ->
  exists log, read gc offset size = Done (gc, Returns 0, log).
Proof.
  unfold unhandled_read, dev_space, dma_space, int_space, read.
  fold (subdev_of offset).
  intros [[Hw Hs]|[[[Hw1 Hw2] Hs]|[[Hw1 Hw2] Hs]]].
  - rewrite (nonzero_true _ Hw). revert Hs. unfold read_subdevs.
    by_subdev (subdev_of offset); intros Hs;
      try (eexists; reflexivity); exfalso; apply Hs; simpl; tauto.
  - rewrite (nonzero_false _ Hw1), (nonzero_true _ Hw2). revert Hs.
    by_subdev (subdev_of offset); intros Hs;
      try (eexists; reflexivity); exfalso; apply Hs; reflexivity.
  - rewrite (nonzero_false _ Hw1), (nonzero_false _ Hw2).
    cbn [In] in Hs.
    destruct (Z.eqb_spec offset MIO_INT_MASK1); [exfalso; auto|].
    destruct (Z.eqb_spec offset MIO_INT_LEVELS1); [exfalso; auto|].
    destruct (Z.eqb_spec offset MIO_INT_EVENTS1); [exfalso; auto 6|].
    eexists; reflexivity.
Qed.

Lemma write_unhandled gc offset value size :
  unhandled_write offset ->
  exists log, write gc offset value size = Done (gc, None, log).
Proof.
  unfold unhandled_write, dev_space, dma_space, int_space, write.
  fold (subdev_of offset).
  intros [[Hw Hs]|[[[Hw1 Hw2] Hs]|[[Hw1 Hw2] Hs]]].
  - rewrite (nonzero_true _ Hw). revert Hs. unfold write_subdevs.
    by_subdev (subdev_of offset); intros Hs;
      try (eexists; reflexivity); exfalso; apply Hs; simpl; tauto.
  - rewrite (nonzero_false _ Hw1), (nonzero_true _ Hw2). revert Hs.
    by_subdev (subdev_of offset); intros Hs;
      try (eexists; reflexivity); exfalso; apply Hs; reflexivity.
  - rewrite (nonzero_false _ Hw1), (nonzero_false _ Hw2).
    cbn [In] in Hs.
    destruct (Z.eqb_spec offset MIO_INT_MASK1); [exfalso; auto|].
    destruct (Z.eqb_spec offset MIO_INT_CLEAR1); [exfalso; auto|].
    eexists; reflexivity.
Qed.

(** C8. Accesses to unknown registers are recoverable: at an offset that no
    case handles (a device or DMA register space offset whose subdevice
    number has no case, an interrupt register space offset that is not one
    of the fixed registers) a read completes and returns 0, a write
    completes and leaves the controller state as it was and calls no
    subdevice; neither aborts. *)
Theorem unknown_registers_recoverable
  (gc : GCState) (off_r off_w value size : Z) :
  unhandled_read off_r -> unhandled_write off_w ->
  (exists log, read gc off_r size = Done (gc, Returns 0, log)) /\
  (exists log, write gc off_w value size = Done (gc, None, log)).
Proof.
  intros Hr Hw. split; [now apply read_unhandled|now apply write_unhandled].
Qed.

(** C9. Configuration errors are fatal: [register_dev_int] returns a bit
    for the three known sources and for no other (VIA_CUDA gives [1 << 18],
    SCSI1 gives [1 << 12], SWIM3 gives [1 << 19]) and aborts for every
    other source id; [ack_int] aborts whenever the mode bit of the mask is
    clear (native mode). *)
Theorem configuration_errors_fatal :
  distinct_sources ->
  (register_dev_int VIA_CUDA = Done (Z.shiftl 1 18) /\
   register_dev_int SCSI1 = Done (Z.shiftl 1 12) /\
   register_dev_int SWIM3 = Done (Z.shiftl 1 19)) /\
  (forall src_id,
      ~ In src_id [VIA_CUDA; SCSI1; SWIM3] ->
      exists msg, register_dev_int src_id = Abort msg) /\
  (forall gc irq_id line,
      Z.land (int_mask gc) MACIO_INT_MODE = 0 ->
      exists msg, ack_int gc irq_id line = Abort msg).
Proof.
  intros (H12 & H13 & H23). unfold register_dev_int. repeat split.
  - now rewrite Z.eqb_refl.
  - destruct (Z.eqb_spec SCSI1 VIA_CUDA) as [E|_]; [now elim H12|].
    now rewrite Z.eqb_refl.
  - destruct (Z.eqb_spec SWIM3 VIA_CUDA) as [E|_]; [now elim H13|].
    destruct (Z.eqb_spec SWIM3 SCSI1) as [E|_]; [now elim H23|].
    now rewrite Z.eqb_refl.
  - intros src_id Hn. cbn [In] in Hn.
    destruct (Z.eqb_spec src_id VIA_CUDA); [exfalso; auto|].
    destruct (Z.eqb_spec src_id SCSI1); [exfalso; auto|].
    destruct (Z.eqb_spec src_id SWIM3); [exfalso; auto 6|].
    eexists; reflexivity.
  - intros gc irq_id line Hmode. unfold ack_int.
    rewrite (nonzero_false _ Hmode). eexists; reflexivity.
Qed.

(** C10. Round trip through the mask register: writing a 32-bit value [v]
    to the mask register and reading the register back returns [v], the two
    byte swaps cancelling out, and the read leaves the state, the mask,
    levels and events among it, as the write left it. *)
Theorem mask_register_round_trip (gc : GCState) (v size size' : Z) :
  is_u32 v ->
  int_space MIO_INT_MASK1 ->
  exists gc1,
    write gc MIO_INT_MASK1 v size = Done (gc1, None, []) /\
    int_mask gc1 = BYTESWAP_32 v /\
    read gc1 MIO_INT_MASK1 size' = Done (gc1, Returns v, []).
Proof.
  intros Hv Hsp. exists (set_int_mask gc (BYTESWAP_32 v)).
  split; [now apply write_int_mask|]. split; [reflexivity|].
  rewrite read_int_mask by exact Hsp. simpl.
  now rewrite PciFacts.BYTESWAP_32_involutive.
Qed.

End ControllerFacts.

(** *** Concrete runs *)

#[local] Existing Instance sample_consts.

Lemma remasking_invariant_witness :
  exists gc',
    run gc_zero
        ([SetMask 0x00100080] ++ [Acknowledge (Z.shiftl 1 12) 1])
    = Done gc' /\ remasked gc'.
Proof.
  apply (remasking_invariant gc_zero (mkGC 0 0x80001000 0 0 0)
           [SetMask 0x00100080] (Z.shiftl 1 12) 1).
  - vm_compute. reflexivity.
  - vm_compute. discriminate.
Defined.

Lemma set_mask_not_retroactive_witness :
  (forall gc value size,
      exists gc',
        write gc MIO_INT_MASK1 value size = Done (gc', None, []) /\
        int_mask gc' = BYTESWAP_32 value /\
        int_events gc' = int_events gc /\
        int_levels gc' = int_levels gc /\
        nvram_addr_hi gc' = nvram_addr_hi gc /\
        base_addr gc' = base_addr gc) /\
  (exists gc value gc',
      remasked gc /\
      write gc MIO_INT_MASK1 value 4 = Done (gc', None, []) /\
      ~ remasked gc').
Proof.
  apply (set_mask_not_retroactive).
  split; vm_compute; reflexivity.
Defined.

(** C5, as stated, fails on the code: from the reset state, a write of 1 to
    the NVRAM high address register (offset 0x1D000) changes the byte
    address that a read of the NVRAM data register at offset 0x1F000 hands
    to the NVRAM, from 0 to 32. *)
Lemma nvram_route_follows_latch : ~ routing_by_offset_alone.
Proof.
  intros H.
  assert (Hw : write gc_zero 0x1D000 1 1
               = Done (mkGC 0 0 0 0 1, None, [])) by reflexivity.
  destruct (H gc_zero (mkGC 0 0 0 0 1) 0x1F000 0 1) as [Hrd _].
  assert (H0 : read_route gc_zero 0x1F000 1
               = Some (nvram_read_byte 0)) by reflexivity.
  assert (H1 : read_route (mkGC 0 0 0 0 1) 0x1F000 1
               = Some (nvram_read_byte 32)) by reflexivity.
  rewrite H0, H1 in Hrd. discriminate Hrd.
Qed.

Lemma routing_determinism_witness :
  read_route gc_zero 0x12005 1
    = read_route (mkGC 0 0 0 0 1) 0x12005 1 /\
  write_route gc_zero 0x12005 0x55 1
    = write_route (mkGC 0 0 0 0 1) 0x12005 0x55 1.
Proof.
  apply (routing_determinism gc_zero (mkGC 0 0 0 0 1)
           0x12005 0x55 1).
  right. intros [_ Hs]. vm_compute in Hs. discriminate Hs.
Defined.

Lemma escc_dual_addressing_witness :
  read gc_zero 0x12005 1
    = Done (gc_zero,
            ReturnsFrom (escc_read (Z.land (Z.shiftr 0x12005 1) 0xF)), []) /\
  write gc_zero 0x12005 0x55 1
    = Done (gc_zero,
            Some (escc_write (Z.land (Z.shiftr 0x12005 1) 0xF) 0x55), []) /\
  read gc_zero 0x12014 1
    = Done (gc_zero,
            ReturnsFrom (escc_read (Z.land (Z.shiftr 0x12014 4) 0xF)), []) /\
  write gc_zero 0x12014 0x55 1
    = Done (gc_zero,
            Some (escc_write (Z.land (Z.shiftr 0x12014 4) 0xF) 0x55), []).
Proof.
  apply (escc_dual_addressing gc_zero 0x12005 0x12014 0x55 1).
  - vm_compute. discriminate.
  - vm_compute. reflexivity.
  - vm_compute. reflexivity.
  - vm_compute. discriminate.
  - vm_compute. reflexivity.
  - vm_compute. reflexivity.
Defined.

Lemma unknown_registers_recoverable_witness :
  (exists log,
      read gc_zero 0x15000 4 = Done (gc_zero, Returns 0, log)) /\
  (exists log,
      write gc_zero 0x1B000 0x55 4 = Done (gc_zero, None, log)).
Proof.
  apply (unknown_registers_recoverable gc_zero
           0x15000 0x1B000 0x55 4).
  - left. split.
    + vm_compute. discriminate.
    + vm_compute. intuition discriminate.
  - left. split.
    + vm_compute. discriminate.
    + vm_compute. intuition discriminate.
Defined.

Lemma configuration_errors_fatal_witness :
  (register_dev_int VIA_CUDA = Done (Z.shiftl 1 18) /\
   register_dev_int SCSI1 = Done (Z.shiftl 1 12) /\
   register_dev_int SWIM3 = Done (Z.shiftl 1 19)) /\
  (forall src_id,
      ~ In src_id [VIA_CUDA; SCSI1; SWIM3] ->
      exists msg, register_dev_int src_id = Abort msg) /\
  (forall gc irq_id line,
      Z.land (int_mask gc) MACIO_INT_MODE = 0 ->
      exists msg, ack_int gc irq_id line = Abort msg).
Proof.
  apply (configuration_errors_fatal).
  vm_compute. repeat split; discriminate.
Defined.

Lemma mask_register_round_trip_witness :
  exists gc1,
    write gc_zero MIO_INT_MASK1 0x12345678 4
      = Done (gc1, None, []) /\
    int_mask gc1 = BYTESWAP_32 0x12345678 /\
    read gc1 MIO_INT_MASK1 4 = Done (gc1, Returns 0x12345678, []).
Proof.
  apply (mask_register_round_trip gc_zero 0x12345678 4 4).
  - unfold is_u32. lia.
  - split; vm_compute; reflexivity.
Defined.

End GCFacts.

(** ** Soundness of the comparison over several values *)

Module WordExprNFacts.
Import Bits WordExpr WordExprN WordExprFacts.

Lemma bitsn_atom env x n : bitsn env (4 * n + var_id x) = Z.testbit (env x) n.
Proof.
  unfold bitsn, var_of.
  assert (Hid : 0 <= var_id x < 4) by (destruct x; simpl; lia).
  assert (Hm : (4 * n + var_id x) mod 4 = var_id x).
  { rewrite Z.add_comm, Z.mul_comm, Z_mod_plus_full. now apply Z.mod_small. }
  assert (Hd : (4 * n + var_id x) / 4 = n).
  { rewrite Z.add_comm, Z.mul_comm, Z_div_plus_full by lia.
    rewrite Z.div_small by exact Hid. reflexivity. }
  rewrite Hm, Hd. destruct x; reflexivity.
Qed.

Lemma wbitn_sound env e :
  forall n, 0 <= n -> bden (bitsn env) (wbitn e n) = Z.testbit (wevaln env e) n.
Proof.
  induction e as [x|c|a IHa b IHb|a IHa b IHb|a IHa|a IHa k|a IHa k];
    intros n Hn; cbn [wbitn wevaln bden].
  - apply bitsn_atom.
  - reflexivity.
  - now rewrite bden_band, Z.land_spec, IHa, IHb.
  - now rewrite bden_bor, Z.lor_spec, IHa, IHb.
  - now rewrite bden_bneg, Z.lnot_spec, IHa.
  - rewrite Z.shiftl_spec by exact Hn.
    destruct (Z.ltb_spec (n - k) 0) as [Hneg|Hpos].
    + now rewrite Z.testbit_neg_r.
    + now apply IHa.
  - rewrite Z.shiftr_spec by exact Hn.
    destruct (Z.ltb_spec (n + k) 0) as [Hneg|Hpos].
    + now rewrite Z.testbit_neg_r.
    + now apply IHa.
Qed.

Lemma whin_sound env e :
  (forall x, is_u32 (env x)) ->
  forall w n, whin e = Some w -> 0 <= n -> w <= n ->
    Z.testbit (wevaln env e) n = false.
Proof.
  intros Henv.
  induction e as [x|c|a IHa b IHb|a IHa b IHb|a IHa|a IHa k|a IHa k];
    simpl; intros w n Hw Hn Hwn.
  - injection Hw as <-. now apply is_u32_high_bits.
  - destruct (Z.leb_spec 0 c) as [Hc|Hc]; [|discriminate].
    injection Hw as <-.
    apply Z.bits_above_log2; lia.
  - rewrite Z.land_spec.
    destruct (whin a) as [x|], (whin b) as [y|]; try discriminate;
      injection Hw as <-.
    + destruct (Z.min_spec x y) as [[_ Hm]|[_ Hm]]; rewrite Hm in Hwn.
      * rewrite (IHa x n) by (auto; lia). reflexivity.
      * rewrite (IHb y n) by (auto; lia). apply andb_false_r.
    + rewrite (IHa x n) by (auto; lia). reflexivity.
    + rewrite (IHb y n) by (auto; lia). apply andb_false_r.
  - rewrite Z.lor_spec.
    destruct (whin a) as [x|], (whin b) as [y|]; try discriminate.
    injection Hw as <-.
    rewrite (IHa x n), (IHb y n) by (auto; lia). reflexivity.
  - discriminate.
  - destruct (whin a) as [x|]; [|discriminate]. injection Hw as <-.
    rewrite Z.shiftl_spec by exact Hn.
    destruct (Z_lt_le_dec (n - k) 0) as [Hneg|Hpos].
    + now apply Z.testbit_neg_r.
    + apply (IHa x); [reflexivity|exact Hpos|lia].
  - destruct (whin a) as [x|]; [|discriminate]. injection Hw as <-.
    rewrite Z.shiftr_spec by exact Hn.
    destruct (Z_lt_le_dec (n + k) 0) as [Hneg|Hpos].
    + now apply Z.testbit_neg_r.
    + apply (IHa x); [reflexivity|exact Hpos|lia].
Qed.

Lemma fitsn_sound env e w n :
  (forall x, is_u32 (env x)) -> fitsn w e = true -> 0 <= n -> w <= n ->
  Z.testbit (wevaln env e) n = false.
Proof.
  unfold fitsn. intros Henv He Hn Hwn.
  destruct (whin e) as [x|] eqn:Hx; [|discriminate].
  apply Z.leb_le in He.
  apply (whin_sound env e Henv x); [exact Hx|exact Hn|lia].
Qed.

Lemma wcheckn_sound env e1 e2 :
  (forall x, is_u32 (env x)) -> wcheckn e1 e2 = true ->
  wevaln env e1 = wevaln env e2.
Proof.
  unfold wcheckn. intros Henv H.
  apply andb_prop in H as [H Hbits]. apply andb_prop in H as [H1 H2].
  rewrite forallb_forall in Hbits.
  apply Z.bits_inj'. intros n Hn.
  destruct (Z_lt_le_dec n 32) as [Hlt|Hge].
  - rewrite <- !wbitn_sound by exact Hn.
    apply beqb_sound, Hbits, In_lanes32. lia.
  - rewrite (fitsn_sound env e1 32), (fitsn_sound env e2 32); auto.
Qed.

(** A value all of whose bits from position [w] on are clear lies below
    [2 ^ w]. *)
Lemma high_bits_bound w x :
  0 <= w -> (forall n, w <= n -> Z.testbit x n = false) -> 0 <= x < 2 ^ w.
Proof.
  intros Hw H.
  assert (Hx : x = Z.land x (Z.ones w)).
  { apply Z.bits_inj'. intros n Hn. rewrite Z.land_spec.
    destruct (Z_lt_le_dec n w) as [Hlt|Hge].
    - rewrite Z.ones_spec_low by lia. now rewrite andb_true_r.
    - rewrite H by exact Hge. reflexivity. }
  rewrite Hx, Z.land_ones by exact Hw.
  apply Z.mod_pos_bound. lia.
Qed.

Lemma fitsn_bound env e w :
  (forall x, is_u32 (env x)) -> 0 <= w -> fitsn w e = true ->
  0 <= wevaln env e < 2 ^ w.
Proof.
  intros Henv Hw He. apply high_bits_bound; [exact Hw|].
  intros n Hn. apply (fitsn_sound env e w); auto. lia.
Qed.

Lemma env4_u32 a b c d :
  is_u32 a -> is_u32 b -> is_u32 c -> is_u32 d ->
  forall x, is_u32 (env4 a b c d x).
Proof. intros Ha Hb Hc Hd [| | |]; assumption. Qed.

Lemma is_u32_0 : is_u32 0.
Proof. unfold is_u32. lia. Qed.

End WordExprNFacts.

(** Reading a term over the values [a], [b], [c] as a [wexpn]. *)
Ltac reify_wordn a b c t :=
  lazymatch t with
  | a => constr:(WordExprN.NVar WordExprN.V0)
  | b => constr:(WordExprN.NVar WordExprN.V1)
  | c => constr:(WordExprN.NVar WordExprN.V2)
  | Z.land ?x ?y =>
      let x' := reify_wordn a b c x in
      let y' := reify_wordn a b c y in constr:(WordExprN.NAnd x' y')
  | Z.lor ?x ?y =>
      let x' := reify_wordn a b c x in
      let y' := reify_wordn a b c y in constr:(WordExprN.NOr x' y')
  | Z.lnot ?x =>
      let x' := reify_wordn a b c x in constr:(WordExprN.NNot x')
  | Z.shiftl ?x ?k =>
      let x' := reify_wordn a b c x in constr:(WordExprN.NShl x' k)
  | Z.shiftr ?x ?k =>
      let x' := reify_wordn a b c x in constr:(WordExprN.NShr x' k)
  | _ => constr:(WordExprN.NCst t)
  end.

(** Proves [l = r] for two terms over the 32-bit values [a], [b], [c]. *)
Ltac wordn_eq a b c Ha Hb Hc :=
  lazymatch goal with
  | |- ?l = ?r =>
      let l' := reify_wordn a b c l in
      let r' := reify_wordn a b c r in
      change (WordExprN.wevaln (WordExprN.env4 a b c 0) l'
              = WordExprN.wevaln (WordExprN.env4 a b c 0) r');
      apply (WordExprNFacts.wcheckn_sound (WordExprN.env4 a b c 0) l' r'
               (WordExprNFacts.env4_u32 a b c 0 Ha Hb Hc
                  WordExprNFacts.is_u32_0));
      vm_compute; reflexivity
  end.

(** Proves [0 <= t < 2 ^ w] for a term over [a], [b], [c]. *)
Ltac wordn_bound a b c Ha Hb Hc :=
  lazymatch goal with
  | |- 0 <= ?t < 2 ^ ?w =>
      let t' := reify_wordn a b c t in
      change (0 <= WordExprN.wevaln (WordExprN.env4 a b c 0) t' < 2 ^ w);
      apply (WordExprNFacts.fitsn_bound (WordExprN.env4 a b c 0) t' w
               (WordExprNFacts.env4_u32 a b c 0 Ha Hb Hc
                  WordExprNFacts.is_u32_0));
      [lia|vm_compute; reflexivity]
  end.

(** ** More on the byte-lane codec *)

Module PciLaneFacts.
Import Bits Pci PciLanes PciFacts.

Ltac in_cases H :=
  cbn [In] in H; repeat (destruct H as [<-|H]; [|]); try contradiction.

Ltac open_codec :=
  unfold lane_byte, pci_conv_wr_data, pci_conv_rd_data;
  repeat match goal with
         | |- context [lane_sel ?d] =>
             let x := eval vm_compute in (lane_sel d) in
             change (lane_sel d) with x
         end;
  cbv beta iota; unfold_swaps.

(** X1. Reading back what was just written returns the written data, cut to the
    size of the access: for every size in {1,2,4}, offset in {0,1,2,3} and
    32-bit values [v1] and [v2]. *)
Theorem codec_read_after_write (v1 v2 s o fw fr : Z) :
  is_u32 v1 -> is_u32 v2 -> In s [1; 2; 4] -> In o [0; 1; 2; 3] ->
  pci_conv_rd_data (pci_conv_wr_data v1 v2 (mkAccessDetails s o fw))
                   (mkAccessDetails s o fr)
  = Z.land v2 (Z.ones (8 * s)).
Proof.
  intros H1 H2 Hs Ho. in_cases Hs; in_cases Ho; open_codec;
    wordn_eq v1 v2 0 H1 H2 WordExprNFacts.is_u32_0.
Qed.

Lemma codec_read_after_write_witness :
  pci_conv_rd_data
    (pci_conv_wr_data 0xAABBCCDD 0x11223344
       (mkAccessDetails 2 3 PCI_CONFIG_WRITE))
    (mkAccessDetails 2 3 PCI_CONFIG_READ)
  = Z.land 0x11223344 (Z.ones (8 * 2)).
Proof.
  apply (codec_read_after_write 0xAABBCCDD 0x11223344 2 3
           PCI_CONFIG_WRITE PCI_CONFIG_READ).
  - unfold is_u32. lia.
  - unfold is_u32. lia.
  - simpl. tauto.
  - simpl. tauto.
Defined.

(** X2. A write leaves every byte lane it does not cover as it was: the byte at
    an offset outside [lanes s o] reads the same before and after a write
    of size [s] at offset [o], the wrap-around of an unaligned word
    included. *)
Theorem codec_write_keeps_other_lanes (v1 v2 s o o' f : Z) :
  is_u32 v1 -> is_u32 v2 ->
  In s [1; 2; 4] -> In o [0; 1; 2; 3] -> In o' [0; 1; 2; 3] ->
  ~ In o' (lanes s o) ->
  lane_byte (pci_conv_wr_data v1 v2 (mkAccessDetails s o f)) o'
  = lane_byte v1 o'.
Proof.
  intros H1 H2 Hs Ho Ho' Hout.
  in_cases Hs; in_cases Ho; in_cases Ho';
    try (exfalso; apply Hout; vm_compute; tauto);
    open_codec; wordn_eq v1 v2 0 H1 H2 WordExprNFacts.is_u32_0.
Qed.

Lemma codec_write_keeps_other_lanes_witness :
  lane_byte (pci_conv_wr_data 0xAABBCCDD 0x1122
               (mkAccessDetails 2 3 PCI_CONFIG_WRITE)) 1
  = lane_byte 0xAABBCCDD 1.
Proof.
  apply (codec_write_keeps_other_lanes 0xAABBCCDD 0x1122 2 3 1
           PCI_CONFIG_WRITE).
  - unfold is_u32. lia.
  - unfold is_u32. lia.
  - simpl. tauto.
  - simpl. tauto.
  - simpl. tauto.
  - vm_compute. intuition discriminate.
Defined.

(** X3. What a read returns fits the size of the access: below [2 ^ (8 * s)]
    for an access of [s] bytes. *)
Theorem codec_read_bound (v s o f : Z) :
  is_u32 v -> In s [1; 2; 4] -> In o [0; 1; 2; 3] ->
  0 <= pci_conv_rd_data v (mkAccessDetails s o f) < 2 ^ (8 * s).
Proof.
  intros Hv Hs Ho. in_cases Hs; in_cases Ho; open_codec;
    wordn_bound v 0 0 Hv WordExprNFacts.is_u32_0 WordExprNFacts.is_u32_0.
Qed.

Lemma codec_read_bound_witness :
  0 <= pci_conv_rd_data 0xAABBCCDD (mkAccessDetails 2 3 PCI_CONFIG_READ)
    < 2 ^ (8 * 2).
Proof.
  apply (codec_read_bound 0xAABBCCDD 2 3 PCI_CONFIG_READ).
  - unfold is_u32. lia.
  - simpl. tauto.
  - simpl. tauto.
Defined.

(** X4. A word or dword read is made of the bytes at the consecutive offsets
    [o], [o+1], ... taken modulo 4, the byte at the lowest offset in the
    most significant place. *)
Theorem codec_read_assembles_bytes (v o f : Z) :
  is_u32 v -> In o [0; 1; 2; 3] ->
  pci_conv_rd_data v (mkAccessDetails 2 o f)
  = Z.lor (Z.shiftl (lane_byte v o) 8) (lane_byte v ((o + 1) mod 4)) /\
  pci_conv_rd_data v (mkAccessDetails 4 o f)
  = Z.lor (Z.lor (Z.shiftl (lane_byte v o) 24)
                 (Z.shiftl (lane_byte v ((o + 1) mod 4)) 16))
          (Z.lor (Z.shiftl (lane_byte v ((o + 2) mod 4)) 8)
                 (lane_byte v ((o + 3) mod 4))).
Proof.
  intros Hv Ho. in_cases Ho; split; open_codec;
    wordn_eq v 0 0 Hv WordExprNFacts.is_u32_0 WordExprNFacts.is_u32_0.
Qed.

Lemma codec_read_assembles_bytes_witness :
  pci_conv_rd_data 0xAABBCCDD (mkAccessDetails 2 3 PCI_CONFIG_READ)
  = Z.lor (Z.shiftl (lane_byte 0xAABBCCDD 3) 8)
          (lane_byte 0xAABBCCDD ((3 + 1) mod 4)) /\
  pci_conv_rd_data 0xAABBCCDD (mkAccessDetails 4 3 PCI_CONFIG_READ)
  = Z.lor (Z.lor (Z.shiftl (lane_byte 0xAABBCCDD 3) 24)
                 (Z.shiftl (lane_byte 0xAABBCCDD ((3 + 1) mod 4)) 16))
          (Z.lor (Z.shiftl (lane_byte 0xAABBCCDD ((3 + 2) mod 4)) 8)
                 (lane_byte 0xAABBCCDD ((3 + 3) mod 4))).
Proof.
  apply (codec_read_assembles_bytes 0xAABBCCDD 3 PCI_CONFIG_READ).
  - unfold is_u32. lia.
  - simpl. tauto.
Defined.

(** X5. The merged value stays within 32 bits, and a write uses only the low
    [s] bytes of the incoming data. *)
Theorem codec_write_uses_low_bytes (v1 v2 s o f : Z) :
  is_u32 v1 -> is_u32 v2 -> In s [1; 2; 4] -> In o [0; 1; 2; 3] ->
  is_u32 (pci_conv_wr_data v1 v2 (mkAccessDetails s o f)) /\
  pci_conv_wr_data v1 v2 (mkAccessDetails s o f)
  = pci_conv_wr_data v1 (Z.land v2 (Z.ones (8 * s))) (mkAccessDetails s o f).
Proof.
  intros H1 H2 Hs Ho. unfold is_u32.
  in_cases Hs; in_cases Ho; split; open_codec;
    first [ wordn_bound v1 v2 0 H1 H2 WordExprNFacts.is_u32_0
          | wordn_eq v1 v2 0 H1 H2 WordExprNFacts.is_u32_0 ].
Qed.

Lemma codec_write_uses_low_bytes_witness :
  is_u32 (pci_conv_wr_data 0xAABBCCDD 0x11223344
            (mkAccessDetails 1 2 PCI_CONFIG_WRITE)) /\
  pci_conv_wr_data 0xAABBCCDD 0x11223344 (mkAccessDetails 1 2 PCI_CONFIG_WRITE)
  = pci_conv_wr_data 0xAABBCCDD (Z.land 0x11223344 (Z.ones (8 * 1)))
      (mkAccessDetails 1 2 PCI_CONFIG_WRITE).
Proof.
  apply (codec_write_uses_low_bytes 0xAABBCCDD 0x11223344 1 2
           PCI_CONFIG_WRITE).
  - unfold is_u32. lia.
  - unfold is_u32. lia.
  - simpl. tauto.
  - simpl. tauto.
Defined.

(** X6. The last write wins: a second write with the same size and offset
    replaces what the first one wrote. *)
Theorem codec_write_overwrites (v a b s o f : Z) :
  is_u32 v -> is_u32 a -> is_u32 b -> In s [1; 2; 4] -> In o [0; 1; 2; 3] ->
  pci_conv_wr_data (pci_conv_wr_data v a (mkAccessDetails s o f)) b
                   (mkAccessDetails s o f)
  = pci_conv_wr_data v b (mkAccessDetails s o f).
Proof.
  intros Hv Ha Hb Hs Ho. in_cases Hs; in_cases Ho; open_codec;
    wordn_eq v a b Hv Ha Hb.
Qed.

Lemma codec_write_overwrites_witness :
  pci_conv_wr_data
    (pci_conv_wr_data 0xAABBCCDD 0x1122 (mkAccessDetails 2 1 PCI_CONFIG_WRITE))
    0x3344 (mkAccessDetails 2 1 PCI_CONFIG_WRITE)
  = pci_conv_wr_data 0xAABBCCDD 0x3344 (mkAccessDetails 2 1 PCI_CONFIG_WRITE).
Proof.
  apply (codec_write_overwrites 0xAABBCCDD 0x1122 0x3344 2 1
           PCI_CONFIG_WRITE).
  - unfold is_u32. lia.
  - unfold is_u32. lia.
  - unfold is_u32. lia.
  - simpl. tauto.
  - simpl. tauto.
Defined.

(** X7. Writes to disjoint byte lanes commute. *)
Theorem codec_writes_commute (v a b s o s' o' f f' : Z) :
  is_u32 v -> is_u32 a -> is_u32 b ->
  In s [1; 2; 4] -> In o [0; 1; 2; 3] ->
  In s' [1; 2; 4] -> In o' [0; 1; 2; 3] ->
  lanes_disjoint s o s' o' = true ->
  pci_conv_wr_data (pci_conv_wr_data v a (mkAccessDetails s o f)) b
                   (mkAccessDetails s' o' f')
  = pci_conv_wr_data (pci_conv_wr_data v b (mkAccessDetails s' o' f')) a
                     (mkAccessDetails s o f).
Proof.
  intros Hv Ha Hb Hs Ho Hs' Ho' Hd.
  in_cases Hs; in_cases Ho; in_cases Hs'; in_cases Ho';
    try (vm_compute in Hd; discriminate Hd);
    open_codec; wordn_eq v a b Hv Ha Hb.
Qed.

Lemma codec_writes_commute_witness :
  pci_conv_wr_data
    (pci_conv_wr_data 0xAABBCCDD 0x1122 (mkAccessDetails 2 3 PCI_CONFIG_WRITE))
    0x33 (mkAccessDetails 1 1 PCI_CONFIG_WRITE)
  = pci_conv_wr_data
      (pci_conv_wr_data 0xAABBCCDD 0x33 (mkAccessDetails 1 1 PCI_CONFIG_WRITE))
      0x1122 (mkAccessDetails 2 3 PCI_CONFIG_WRITE).
Proof.
  apply (codec_writes_commute 0xAABBCCDD 0x1122 0x33 2 3 1 1
           PCI_CONFIG_WRITE PCI_CONFIG_WRITE).
  - unfold is_u32. lia.
  - unfold is_u32. lia.
  - unfold is_u32. lia.
  - simpl. tauto.
  - simpl. tauto.
  - simpl. tauto.
  - simpl. tauto.
  - vm_compute. reflexivity.
Defined.

(** X8. Two byte writes at the offsets [o] and [o + 1] (modulo 4) amount to one
    word write at [o] of the two bytes, the first in the high place. *)
Theorem codec_word_write_is_two_byte_writes (v a b o f : Z) :
  is_u32 v -> is_u32 a -> is_u32 b -> In o [0; 1; 2; 3] ->
  pci_conv_wr_data (pci_conv_wr_data v a (mkAccessDetails 1 o f)) b
                   (mkAccessDetails 1 ((o + 1) mod 4) f)
  = pci_conv_wr_data v (Z.lor (Z.shiftl (Z.land a 0xFF) 8) (Z.land b 0xFF))
                     (mkAccessDetails 2 o f).
Proof.
  intros Hv Ha Hb Ho. in_cases Ho; open_codec; wordn_eq v a b Hv Ha Hb.
Qed.

Lemma codec_word_write_is_two_byte_writes_witness :
  pci_conv_wr_data
    (pci_conv_wr_data 0xAABBCCDD 0x11 (mkAccessDetails 1 3 PCI_CONFIG_WRITE))
    0x22 (mkAccessDetails 1 ((3 + 1) mod 4) PCI_CONFIG_WRITE)
  = pci_conv_wr_data 0xAABBCCDD
      (Z.lor (Z.shiftl (Z.land 0x11 0xFF) 8) (Z.land 0x22 0xFF))
      (mkAccessDetails 2 3 PCI_CONFIG_WRITE).
Proof.
  apply (codec_word_write_is_two_byte_writes 0xAABBCCDD 0x11 0x22 3
           PCI_CONFIG_WRITE).
  - unfold is_u32. lia.
  - unfold is_u32. lia.
  - unfold is_u32. lia.
  - simpl. tauto.
Defined.

End PciLaneFacts.

(** ** More on the controller *)

Module GCBusFacts.
Import Bits GC GCBus GCFacts.

Ltac case_ifs :=
  repeat match goal with
         | |- context [if ?c then _ else _] => destruct c
         end.

Ltac case_subdev x :=
  destruct x as [|p|p];
  [..|do 5 (try (destruct p as [p|p|]))|].

Ltac frame_done :=
  do 3 eexists; (split; [reflexivity|]); simpl;
  repeat match goal with |- _ /\ _ => split end;
  try reflexivity;
  try (intros Hne; first [now elim Hne | repeat split; assumption]).

Lemma land_ones_range x k : 0 <= k -> 0 <= Z.land x (Z.ones k) < 2 ^ k.
Proof. intros Hk. rewrite Z.land_ones by exact Hk. apply Z.mod_pos_bound. lia. Qed.

Lemma land_0xF_range x : 0 <= Z.land x 0xF < 16.
Proof. exact (land_ones_range x 4 ltac:(lia)). Qed.

Lemma land_0x1F_range x : 0 <= Z.land x 0x1F < 32.
Proof. exact (land_ones_range x 5 ltac:(lia)). Qed.

Lemma land_0xFF_range x : 0 <= Z.land x 0xFF < 256.
Proof. exact (land_ones_range x 8 ltac:(lia)). Qed.

Lemma u32_range x : is_u32 (u32 x).
Proof. exact (land_ones_range x 32 ltac:(lia)). Qed.

(** The bus never breaks into the state on a read: [read] completes at
    every offset and hands back the state it was given. *)
Theorem read_keeps_state `{K : MacioConsts} (gc : GCState) (offset size : Z) :
  exists r log, read gc offset size = Done (gc, r, log).
Proof.
  unfold read.
  destruct (nonzero (Z.land offset 0x10000)).
  - case_subdev (Z.land (Z.shiftr offset 12) 0xF); case_ifs;
      eexists; eexists; reflexivity.
  - destruct (nonzero (Z.land offset 0x8000)).
    + case_subdev (Z.land (Z.shiftr offset 12) 0xF);
        eexists; eexists; reflexivity.
    + case_ifs; eexists; eexists; reflexivity.
Qed.

(** X9. What a bus write can change: it completes at every offset, never
    touches the interrupt levels or the base address, changes the mask only
    at the mask register, the events only at the clear register, and the
    NVRAM high address only at subdevice 0xD of the device register space. *)
Theorem write_frame `{K : MacioConsts} (gc : GCState) (offset value size : Z) :
  exists gc' c log,
    write gc offset value size = Done (gc', c, log) /\
    int_levels gc' = int_levels gc /\
    base_addr gc' = base_addr gc /\
    (int_mask gc' <> int_mask gc ->
     int_space offset /\ offset = MIO_INT_MASK1) /\
    (int_events gc' <> int_events gc ->
     int_space offset /\ offset = MIO_INT_CLEAR1) /\
    (nvram_addr_hi gc' <> nvram_addr_hi gc ->
     dev_space offset /\ subdev_of offset = 0xD).
Proof.
  unfold write, int_space, dev_space, subdev_of, nonzero.
  destruct (Z.eqb_spec (Z.land offset 0x10000) 0) as [H1|H1]; simpl negb;
    cbv iota.
  - destruct (Z.eqb_spec (Z.land offset 0x8000) 0) as [H2|H2]; simpl negb;
      cbv iota.
    + destruct (Z.eqb_spec offset MIO_INT_MASK1) as [Hm|Hm]; [frame_done|].
      destruct (Z.eqb_spec offset MIO_INT_CLEAR1) as [Hc|Hc]; [|frame_done].
      destruct (negb (Z.land value MACIO_INT_CLR =? 0)); frame_done.
    + case_subdev (Z.land (Z.shiftr offset 12) 0xF); frame_done.
  - destruct (Z.land (Z.shiftr offset 12) 0xF) as [|p|p] eqn:Hs;
      [..|do 5 (try (destruct p as [p|p|]))|]; case_ifs; frame_done.
Qed.

(** X10. Every register number the controller hands to a subdevice lies within
    that subdevice's register file (16 registers for the SCSI, the ESCC and
    the VIA, 32 for the MACE, 256 byte offsets for the sound and DMA
    registers), whatever the offset on the bus. *)
Theorem routes_in_range `{K : MacioConsts}
  (gc : GCState) (offset value size : Z) (r : dev_read) (w : dev_write) :
  read_route gc offset size = Some r ->
  write_route gc offset value size = Some w ->
  dev_read_in_range r /\ dev_write_in_range w.
Proof.
  unfold read_route, write_route, read, write.
  destruct (nonzero (Z.land offset 0x10000)).
  - case_subdev (Z.land (Z.shiftr offset 12) 0xF); case_ifs;
      intros Hr Hw; try discriminate Hr; try discriminate Hw;
      injection Hr as <-; injection Hw as <-; simpl;
      auto using land_0xF_range, land_0x1F_range, land_0xFF_range, u32_range.
  - destruct (nonzero (Z.land offset 0x8000)).
    + case_subdev (Z.land (Z.shiftr offset 12) 0xF);
        intros Hr Hw; try discriminate Hr; try discriminate Hw;
        injection Hr as <-; injection Hw as <-; simpl;
        auto using land_0xFF_range.
    + case_ifs; intros Hr Hw; discriminate Hr.
Qed.


(** X12. The compatible addressing of the ESCC reaches the registers 0..7 only:
    with subdevice 2 and [offset & 0xFF] below 16, the register handed to
    the ESCC is [(offset >> 1) & 0xF] and is below 8. *)
Theorem escc_compact_registers `{K : MacioConsts}
  (gc : GCState) (offset value size : Z) :
  dev_space offset -> subdev_of offset = 2 -> Z.land offset 0xFF < 16 ->
  exists reg,
    read_route gc offset size = Some (escc_read reg) /\
    write_route gc offset value size = Some (escc_write reg value) /\
    reg = Z.land (Z.shiftr offset 1) 0xF /\
    0 <= reg < 8.
Proof.
  unfold dev_space, subdev_of. intros Hw Hs Hlow.
  exists (Z.land (Z.shiftr offset 1) 0xF).
  unfold read_route, write_route, read, write.
  rewrite (nonzero_true _ Hw), Hs.
  apply Z.ltb_lt in Hlow. rewrite Hlow. apply Z.ltb_lt in Hlow.
  repeat split.
  - apply land_0xF_range.
  - revert Hlow.
    change 0xFF with (Z.ones 8). change 0xF with (Z.ones 4).
    rewrite !Z.land_ones, Z.shiftr_div_pow2 by lia.
    change (2 ^ 1) with 2. change (2 ^ 4) with 16. change (2 ^ 8) with 256.
    intros Hlow. Z.div_mod_to_equations. lia.
Qed.

(** X13. The NVRAM is addressed in pages of 32 bytes: after a one-byte write
    of the byte [hi] to the high address register (subdevice 0xD), a data
    access (subdevice 0xF) reaches the byte [32 * hi + idx], where
    [idx = (offset >> 4) & 0x1F] is below 32; reads and writes alike. *)
Theorem nvram_paged_address `{K : MacioConsts}
  (gc : GCState) (off_hi off hi value size : Z) :
  dev_space off_hi -> subdev_of off_hi = 0xD ->
  dev_space off -> subdev_of off = 0xF ->
  0 <= hi < 256 ->
  exists gc1 idx,
    write gc off_hi hi 1 = Done (gc1, None, []) /\
    idx = Z.land (Z.shiftr off 4) 0x1F /\ 0 <= idx < 32 /\
    read_route gc1 off size = Some (nvram_read_byte (32 * hi + idx)) /\
    write_route gc1 off value size
    = Some (nvram_write_byte (32 * hi + idx) value).
Proof.
  unfold dev_space, subdev_of. intros Hw1 Hs1 Hw2 Hs2 Hhi.
  exists (set_nvram_addr_hi gc hi), (Z.land (Z.shiftr off 4) 0x1F).
  pose proof (land_0x1F_range (Z.shiftr off 4)) as Hidx.
  assert (Haddr : u32 (Z.shiftl hi 5 + Z.land (Z.shiftr off 4) 0x1F)
                  = 32 * hi + Z.land (Z.shiftr off 4) 0x1F).
  { unfold u32. change 0xFFFFFFFF with (Z.ones 32).
    rewrite Z.land_ones, Z.shiftl_mul_pow2 by lia.
    change (2 ^ 5) with 32.
    rewrite Z.mod_small; lia. }
  unfold read_route, write_route, read, write.
  rewrite (nonzero_true _ Hw1), (nonzero_true _ Hw2), Hs1, Hs2.
  cbn [nvram_addr_hi set_nvram_addr_hi]. rewrite Haddr.
  repeat split; try reflexivity; lia.
Qed.

Lemma lor_land_zero a b : Z.lor a b = 0 <-> a = 0 /\ b = 0.
Proof. apply Z.lor_eq_0_iff. Qed.

(** X14. In 68k emulation mode [ack_int] latches the source into the events
    under the mask, keeps what was pending and enabled, leaves the mask
    alone, and calls the CPU exactly when an enabled event is then pending:
    when the source is enabled or an enabled event was pending already, on
    a rising and on a falling line alike. *)
Theorem ack_int_raises `{K : MacioConsts} (gc : GCState) (irq_id line : Z) :
  Z.land (int_mask gc) MACIO_INT_MODE <> 0 ->
  exists gc' raised,
    ack_int gc irq_id line = Done (gc', raised) /\
    int_mask gc' = int_mask gc /\
    int_events gc'
    = Z.lor (Z.land (int_events gc) (int_mask gc))
            (Z.land irq_id (int_mask gc)) /\
    (raised = true <->
     Z.land (int_events gc) (int_mask gc) <> 0 \/
     Z.land irq_id (int_mask gc) <> 0).
Proof.
  intros Hmode.
  destruct (ack_int_legacy gc irq_id line Hmode)
    as (gc' & raised & Hack & Hmask & Hev & Hr).
  exists gc', raised. rewrite Z.land_lor_distr_l in Hev.
  repeat split; try assumption.
  - intros ->. symmetry in Hr. unfold nonzero in Hr.
    apply negb_true_iff, Z.eqb_neq in Hr. rewrite Hev in Hr.
    destruct (Z.eq_dec (Z.land (int_events gc) (int_mask gc)) 0) as [E|E];
      [right|left; exact E].
    intros E'. apply Hr. apply lor_land_zero. now split.
  - intros Hor. rewrite Hr. apply nonzero_true. rewrite Hev.
    intros E. apply lor_land_zero in E as [E1 E2]. tauto.
Qed.

(** X15. [ack_int] records the line state in the levels whatever the mask: the
    bits of the source are set on a high line and cleared on a low line,
    and the levels of the other sources are left as they were. *)
Theorem ack_int_tracks_level `{K : MacioConsts}
  (gc : GCState) (irq_id line : Z) :
  Z.land (int_mask gc) MACIO_INT_MODE <> 0 ->
  is_u32 (int_levels gc) ->
  exists gc' raised,
    ack_int gc irq_id line = Done (gc', raised) /\
    Z.land (int_levels gc') irq_id = (if nonzero line then irq_id else 0) /\
    Z.land (int_levels gc') (Z.lnot irq_id)
    = Z.land (int_levels gc) (Z.lnot irq_id).
Proof.
  intros Hmode Hl. unfold ack_int. rewrite (nonzero_true _ Hmode).
  destruct (nonzero line); do 2 eexists; (split; [reflexivity|]);
    cbn [int_levels set_int_levels set_int_events]; unfold u32;
    change 0xFFFFFFFF with (Z.ones 32);
    generalize dependent (int_levels gc); intros lv Hl; split;
    apply Z.bits_inj'; intros n Hn;
    rewrite ?Z.land_spec, ?Z.lor_spec, ?Z.lnot_spec, ?Z.bits_0 by exact Hn.
  - destruct (Z.testbit lv n), (Z.testbit irq_id n); reflexivity.
  - destruct (Z.testbit lv n), (Z.testbit irq_id n); reflexivity.
  - destruct (Z.testbit lv n), (Z.testbit irq_id n), (Z.testbit (Z.ones 32) n);
      reflexivity.
  - destruct (Z_lt_le_dec n 32) as [Hlt|Hge].
    + rewrite Z.ones_spec_low by lia.
      destruct (Z.testbit lv n), (Z.testbit irq_id n); reflexivity.
    + rewrite (WordExprFacts.is_u32_high_bits lv n Hl Hge). reflexivity.
Qed.

Lemma land_keeps_zero a x m : Z.land a m = 0 -> Z.land (Z.land a x) m = 0.
Proof.
  intros H.
  now rewrite <- Z.land_assoc, (Z.land_comm x m), Z.land_assoc, H, Z.land_0_l.
Qed.

Lemma write_keeps_remasked `{K : MacioConsts}
  (gc : GCState) (offset value size : Z) :
  remasked gc -> offset <> MIO_INT_MASK1 ->
  exists gc' c log,
    write gc offset value size = Done (gc', c, log) /\ remasked gc'.
Proof.
  unfold remasked, write. intros Hinv Hne.
  destruct (nonzero (Z.land offset 0x10000)).
  - case_subdev (Z.land (Z.shiftr offset 12) 0xF); case_ifs;
      do 3 eexists; (split; [reflexivity|exact Hinv]).
  - destruct (nonzero (Z.land offset 0x8000)).
    + case_subdev (Z.land (Z.shiftr offset 12) 0xF);
        do 3 eexists; (split; [reflexivity|exact Hinv]).
    + destruct (Z.eqb_spec offset MIO_INT_MASK1) as [E|_]; [now elim Hne|].
      case_ifs; do 3 eexists; (split; [reflexivity|]); simpl.
      * reflexivity.
      * now apply land_keeps_zero.
      * exact Hinv.
Qed.

(** X16. Once established, [events & ~mask == 0] holds until the mask is written
    again: acknowledges and writes to the clear register keep it. *)
Theorem remasked_until_mask_write `{K : MacioConsts}
  (gc gc' : GCState) (ops : list int_op) :
  MIO_INT_CLEAR1 <> MIO_INT_MASK1 ->
  remasked gc ->
  forallb (fun op => negb (is_set_mask op)) ops = true ->
  run gc ops = Done gc' ->
  remasked gc'.
Proof.
  intros Hne. revert gc.
  induction ops as [|op ops IH]; intros gc Hinv Hops Hrun; simpl in *.
  - now injection Hrun as <-.
  - apply andb_prop in Hops as [Hop Hops].
    destruct op as [irq_id line|value|value]; simpl in Hop;
      [|discriminate Hop|].
    + simpl in Hrun.
      destruct (ack_int gc irq_id line) as [[gc1 r]|msg] eqn:Hack;
        [|discriminate Hrun].
      apply (IH gc1); auto. exact (ack_int_remasked _ _ _ _ _ Hack).
    + simpl in Hrun.
      destruct (write_keeps_remasked gc MIO_INT_CLEAR1 value 4 Hinv Hne)
        as (gc1 & c & log & Hw & Hinv1).
      rewrite Hw in Hrun. simpl in Hrun. now apply (IH gc1).
Qed.

Lemma is_u32_land a b : is_u32 a -> is_u32 b -> is_u32 (Z.land a b).
Proof.
  intros Ha Hb. unfold is_u32.
  wordn_bound a b 0 Ha Hb WordExprNFacts.is_u32_0.
Qed.

Lemma is_u32_lor a b : is_u32 a -> is_u32 b -> is_u32 (Z.lor a b).
Proof.
  intros Ha Hb. unfold is_u32.
  wordn_bound a b 0 Ha Hb WordExprNFacts.is_u32_0.
Qed.

Lemma write_keeps_u32 `{K : MacioConsts}
  (gc : GCState) (offset value size : Z) :
  int_state_u32 gc -> is_u32 value ->
  exists gc' c log,
    write gc offset value size = Done (gc', c, log) /\ int_state_u32 gc'.
Proof.
  unfold int_state_u32, write. intros (Hm & Hl & He) Hv.
  destruct (nonzero (Z.land offset 0x10000)).
  - case_subdev (Z.land (Z.shiftr offset 12) 0xF); case_ifs;
      do 3 eexists; (split; [reflexivity|]); simpl; auto.
  - destruct (nonzero (Z.land offset 0x8000)).
    + case_subdev (Z.land (Z.shiftr offset 12) 0xF);
        do 3 eexists; (split; [reflexivity|]); simpl; auto.
    + case_ifs; do 3 eexists; (split; [reflexivity|]); simpl;
        refine (conj _ (conj _ _));
        auto using is_u32_land, PciFacts.BYTESWAP_32_range,
          WordExprNFacts.is_u32_0.
Qed.

Lemma step_keeps_u32 `{K : MacioConsts} (gc gc' : GCState) (op : int_op) :
  int_state_u32 gc -> op_u32 op -> step gc op = Done gc' -> int_state_u32 gc'.
Proof.
  intros Hgc Hop Hstep.
  destruct op as [irq_id line|value|value]; simpl in Hop, Hstep.
  - destruct Hgc as (Hm & Hl & He). unfold ack_int in Hstep.
    destruct (nonzero (Z.land (int_mask gc) MACIO_INT_MODE));
      [|discriminate Hstep].
    destruct (nonzero line); simpl in Hstep; injection Hstep as <-;
      unfold int_state_u32; simpl; refine (conj _ (conj _ _));
      auto using is_u32_land, is_u32_lor, u32_range.
  - destruct (write_keeps_u32 gc MIO_INT_MASK1 value 4 Hgc Hop)
      as (gc1 & c & log & Hw & Hgc1).
    rewrite Hw in Hstep. simpl in Hstep. now injection Hstep as <-.
  - destruct (write_keeps_u32 gc MIO_INT_CLEAR1 value 4 Hgc Hop)
      as (gc1 & c & log & Hw & Hgc1).
    rewrite Hw in Hstep. simpl in Hstep. now injection Hstep as <-.
Qed.

(** X17. The interrupt registers stay 32-bit values: starting from 32-bit mask,
    levels and events, no sequence of acknowledges, mask writes and clear
    writes with 32-bit arguments takes any of them out of range. *)
Theorem int_state_stays_u32 `{K : MacioConsts}
  (gc gc' : GCState) (ops : list int_op) :
  int_state_u32 gc -> Forall op_u32 ops -> run gc ops = Done gc' ->
  int_state_u32 gc'.
Proof.
  intros Hgc Hops. revert gc Hgc.
  induction Hops as [|op ops Hop _ IH]; intros gc Hgc Hrun; simpl in Hrun.
  - now injection Hrun as <-.
  - destruct (step gc op) as [gc1|msg] eqn:Hstep; [|discriminate Hrun].
    simpl in Hrun. apply (IH gc1); [|exact Hrun].
    exact (step_keeps_u32 gc gc1 op Hgc Hop Hstep).
Qed.






(** *** Concrete runs *)

#[local] Existing Instance sample_consts.

Lemma routes_in_range_witness :
  dev_read_in_range (viacuda_read 0xB) /\
  dev_write_in_range (viacuda_write 0xB 0x55).
Proof.
  apply (routes_in_range gc_zero 0x17600 0x55 1
           (viacuda_read 0xB) (viacuda_write 0xB 0x55)).
  - vm_compute. reflexivity.
  - vm_compute. reflexivity.
Defined.


Lemma escc_compact_registers_witness :
  exists reg,
    read_route gc_zero 0x1200E 1 = Some (escc_read reg) /\
    write_route gc_zero 0x1200E 0x55 1 = Some (escc_write reg 0x55) /\
    reg = Z.land (Z.shiftr 0x1200E 1) 0xF /\
    0 <= reg < 8.
Proof.
  apply (escc_compact_registers gc_zero 0x1200E 0x55 1).
  - vm_compute. discriminate.
  - vm_compute. reflexivity.
  - vm_compute. reflexivity.
Defined.

Lemma nvram_paged_address_witness :
  exists gc1 idx,
    write gc_zero 0x1D000 3 1 = Done (gc1, None, []) /\
    idx = Z.land (Z.shiftr 0x1F070 4) 0x1F /\ 0 <= idx < 32 /\
    read_route gc1 0x1F070 1 = Some (nvram_read_byte (32 * 3 + idx)) /\
    write_route gc1 0x1F070 0x55 1
    = Some (nvram_write_byte (32 * 3 + idx) 0x55).
Proof.
  apply (nvram_paged_address gc_zero 0x1D000 0x1F070 3 0x55 1).
  - vm_compute. discriminate.
  - vm_compute. reflexivity.
  - vm_compute. discriminate.
  - vm_compute. reflexivity.
  - lia.
Defined.

Lemma ack_int_raises_witness :
  exists gc' raised,
    ack_int (mkGC 0 0x80001000 0 0 0) 0x1000 0 = Done (gc', raised) /\
    int_mask gc' = int_mask (mkGC 0 0x80001000 0 0 0) /\
    int_events gc'
    = Z.lor (Z.land (int_events (mkGC 0 0x80001000 0 0 0))
                    (int_mask (mkGC 0 0x80001000 0 0 0)))
            (Z.land 0x1000 (int_mask (mkGC 0 0x80001000 0 0 0))) /\
    (raised = true <->
     Z.land (int_events (mkGC 0 0x80001000 0 0 0))
            (int_mask (mkGC 0 0x80001000 0 0 0)) <> 0 \/
     Z.land 0x1000 (int_mask (mkGC 0 0x80001000 0 0 0)) <> 0).
Proof.
  apply (ack_int_raises (mkGC 0 0x80001000 0 0 0) 0x1000 0).
  vm_compute. discriminate.
Defined.

Lemma ack_int_tracks_level_witness :
  exists gc' raised,
    ack_int (mkGC 0 0x80001000 0x41000 0 0) 0x1000 0 = Done (gc', raised) /\
    Z.land (int_levels gc') 0x1000 = (if nonzero 0 then 0x1000 else 0) /\
    Z.land (int_levels gc') (Z.lnot 0x1000)
    = Z.land (int_levels (mkGC 0 0x80001000 0x41000 0 0)) (Z.lnot 0x1000).
Proof.
  apply (ack_int_tracks_level (mkGC 0 0x80001000 0x41000 0 0) 0x1000 0).
  - vm_compute. discriminate.
  - unfold is_u32. simpl. lia.
Defined.

Lemma remasked_until_mask_write_witness :
  remasked (mkGC 0 0x80001000 0x1000 0 0).
Proof.
  apply (remasked_until_mask_write
           (mkGC 0 0x80001000 0 0x1000 0) (mkGC 0 0x80001000 0x1000 0 0)
           [Acknowledge 0x1000 1; ClearEvents 0x80]).
  - vm_compute. discriminate.
  - vm_compute. reflexivity.
  - vm_compute. reflexivity.
  - vm_compute. reflexivity.
Defined.

Lemma int_state_stays_u32_witness :
  int_state_u32 (mkGC 0 0x80001000 0x1000 0x1000 0).
Proof.
  apply (int_state_stays_u32 gc_zero (mkGC 0 0x80001000 0x1000 0x1000 0)
           [SetMask 0x00100080; Acknowledge 0x1000 1]).
  - unfold int_state_u32, is_u32. simpl. lia.
  - repeat constructor; unfold is_u32; simpl; lia.
  - vm_compute. reflexivity.
Defined.

End GCBusFacts.

(** ** The SCSI hard disk *)

Module ScsiHdFacts.
Import Bits GC ScsiHd.

Lemma u32_mod x : u32 x = x mod 2 ^ 32.
Proof. unfold u32. change 0xFFFFFFFF with (Z.ones 32). apply Z.land_ones. lia. Qed.

Lemma u32_small x : 0 <= x < 2 ^ 32 -> u32 x = x.
Proof. intros H. rewrite u32_mod. now apply Z.mod_small. Qed.

Lemma device_offset_wraps lba :
  u32 (lba * HDD_SECTOR_SIZE) = 512 * (lba mod 2 ^ 23).
Proof.
  rewrite u32_mod. unfold HDD_SECTOR_SIZE.
  change (2 ^ 32) with (2 ^ 23 * 512).
  rewrite Z.mul_mod_distr_r by lia. lia.
Qed.

Section DiskFacts.
Context {S : ScsiConsts}.

(** X19. [process_command] aborts on every opcode other than 0x00, 0x08, 0x0A,
    0x25, 0x28 and 0x2A, whatever handler the opcode would select; so a
    command that completes carries one of these six opcodes. *)
Theorem untested_commands_abort (hd : HdState) :
  ~ In (cmd_buf hd 0) tested_opcodes ->
  exists msg, process_command hd = Abort msg.
Proof.
  unfold tested_opcodes. cbn [In]. intros Hn.
  unfold process_command. cbn [cmd_buf set_status set_xfer_actions].
  destruct (Z.eqb_spec (cmd_buf hd 0) 0); [lia|].
  destruct (Z.eqb_spec (cmd_buf hd 0) 8); [lia|].
  destruct (Z.eqb_spec (cmd_buf hd 0) 0xA); [lia|].
  destruct (Z.eqb_spec (cmd_buf hd 0) 0x28); [lia|].
  destruct (Z.eqb_spec (cmd_buf hd 0) 0x2A); [lia|].
  destruct (Z.eqb_spec (cmd_buf hd 0) 0x25); [lia|].
  simpl. eexists; reflexivity.
Qed.

(** X20. Positions in the image are computed in 32 bits: a seek, a read and a
    write of block [lba] all position the file at [512 * (lba mod 2^23)],
    so that the blocks [lba] and [lba + 2^23] share one position and only
    the first 4 GiB of an image can be reached. *)
Theorem disk_position_wraps (hd : HdState) (lba transfer_len cmd_len : Z) :
  let pos := 512 * (lba mod 2 ^ 23) in
  snd (seek hd lba) = [hdd_seekg pos] /\
  snd (write hd lba transfer_len cmd_len) = [hdd_seekg pos] /\
  nth 1 (snd (read hd lba transfer_len cmd_len)) hdd_open = hdd_seekg pos /\
  snd (seek hd (lba + 2 ^ 23)) = snd (seek hd lba).
Proof.
  unfold seek, write, read. cbn [snd nth].
  rewrite !device_offset_wraps.
  repeat split.
  rewrite <- (Z.mul_1_l (2 ^ 23)) at 1. now rewrite Z_mod_plus_full.
Qed.

Lemma read_effects hd lba transfer_len cmd_len :
  0 <= transfer_len < 65536 ->
  let n := if (cmd_len =? 6) && (transfer_len =? 0) then 256
           else transfer_len in
  read hd lba transfer_len cmd_len
  = (set_msg_buf0 (set_cur_buf_cnt hd (512 * n)) COMMAND_COMPLETE,
     [buf_memset; hdd_seekg (512 * (lba mod 2 ^ 23)); hdd_read (512 * n);
      switch_phase DATA_IN]).
Proof.
  intros Hlen n. subst n. unfold read. cbv zeta.
  set (n := if (cmd_len =? 6) && (transfer_len =? 0) then 256
            else transfer_len).
  assert (Hn : 0 <= n <= 65535)
    by (subst n; destruct ((cmd_len =? 6) && (transfer_len =? 0)); lia).
  rewrite (device_offset_wraps lba).
  rewrite (u32_small (n * HDD_SECTOR_SIZE)) by (unfold HDD_SECTOR_SIZE; lia).
  unfold HDD_SECTOR_SIZE. now rewrite (Z.mul_comm n 512).
Qed.

Lemma process_read_6 hd :
  read_6_label -> cmd_buf hd 0 = 8 ->
  process_command hd
  = Done (read (set_status (set_xfer_actions hd false false) GOOD)
               (lba_6 (cmd_buf hd)) (cmd_buf hd 4) 6).
Proof.
  intros (H6 & H1 & H2 & H3 & H4) H0.
  unfold process_command. cbn [cmd_buf set_status set_xfer_actions].
  rewrite H0. simpl (negb _ && _).
  destruct (Z.eqb_spec 8 TEST_UNIT_READY); [congruence|].
  destruct (Z.eqb_spec 8 REWIND); [congruence|].
  destruct (Z.eqb_spec 8 REQ_SENSE); [congruence|].
  destruct (Z.eqb_spec 8 INQUIRY); [congruence|].
  destruct (Z.eqb_spec 8 READ_6); [reflexivity|congruence].
Qed.

Lemma process_read_10 hd :
  read_10_label -> cmd_buf hd 0 = 0x28 ->
  process_command hd
  = Done (read (set_status (set_xfer_actions hd false false) GOOD)
               (lba_10 (cmd_buf hd)) (transfer_len_10 (cmd_buf hd)) 10).
Proof.
  intros (H10 & H1 & H2 & H3 & H4 & H5) H0.
  unfold process_command. cbn [cmd_buf set_status set_xfer_actions].
  rewrite H0. simpl (negb _ && _).
  destruct (Z.eqb_spec 0x28 TEST_UNIT_READY); [congruence|].
  destruct (Z.eqb_spec 0x28 REWIND); [congruence|].
  destruct (Z.eqb_spec 0x28 REQ_SENSE); [congruence|].
  destruct (Z.eqb_spec 0x28 INQUIRY); [congruence|].
  destruct (Z.eqb_spec 0x28 READ_6); [congruence|].
  destruct (Z.eqb_spec 0x28 READ_10); [reflexivity|congruence].
Qed.

(** X21. A READ(6) command (opcode 0x08) reads at block
    [(cmd[1] & 0x1F) * 65536 + cmd[2] * 256 + cmd[3]], which is below 2^21
    so that the position [512 * lba] never wraps, and transfers [cmd[4]]
    blocks, 256 blocks when [cmd[4]] is 0: never an empty transfer. *)
Theorem read_6_geometry (hd : HdState) :
  read_6_label -> cmd_bytes hd -> cmd_buf hd 0 = 8 ->
  exists hd' lba n,
    process_command hd
    = Done (hd', [buf_memset; hdd_seekg (512 * lba); hdd_read (512 * n);
                  switch_phase DATA_IN]) /\
    lba = (cmd_buf hd 1 mod 32) * 65536 + cmd_buf hd 2 * 256 + cmd_buf hd 3 /\
    0 <= lba < 2 ^ 21 /\
    n = (if cmd_buf hd 4 =? 0 then 256 else cmd_buf hd 4) /\
    1 <= n <= 256 /\
    cur_buf_cnt hd' = 512 * n /\
    status hd' = GOOD.
Proof.
  intros Hlabel Hb H0.
  pose proof (Hb 1) as B1. pose proof (Hb 2) as B2.
  pose proof (Hb 3) as B3. pose proof (Hb 4) as B4.
  pose proof (Z.mod_pos_bound (cmd_buf hd 1) 32 ltac:(lia)) as B1'.
  assert (Hlba : lba_6 (cmd_buf hd)
                 = (cmd_buf hd 1 mod 32) * 65536 + cmd_buf hd 2 * 256
                   + cmd_buf hd 3).
  { unfold lba_6. change 0x1F with (Z.ones 5).
    rewrite Z.land_ones, !Z.shiftl_mul_pow2 by lia.
    change (2 ^ 5) with 32. change (2 ^ 16) with 65536.
    change (2 ^ 8) with 256. apply u32_small. lia. }
  assert (Hrange : 0 <= lba_6 (cmd_buf hd) < 2 ^ 21) by (rewrite Hlba; lia).
  rewrite (process_read_6 hd Hlabel H0).
  rewrite read_effects by lia.
  change (6 =? 6) with true. cbn [andb].
  rewrite (Z.mod_small (lba_6 (cmd_buf hd))) by lia.
  do 3 eexists. split; [reflexivity|].
  split; [exact Hlba|]. split; [exact Hrange|]. split; [reflexivity|].
  split; [destruct (Z.eqb_spec (cmd_buf hd 4) 0); lia|].
  split; reflexivity.
Qed.

(** X22. A READ(10) command (opcode 0x28) takes its block address from the four
    bytes [cmd[2..5]], most significant first, and its block count from
    [cmd[7..8]]; the count may be 0, and the position wraps beyond block
    2^23. *)
Theorem read_10_geometry (hd : HdState) :
  read_10_label -> cmd_bytes hd -> cmd_buf hd 0 = 0x28 ->
  exists hd' lba n,
    process_command hd
    = Done (hd', [buf_memset; hdd_seekg (512 * (lba mod 2 ^ 23));
                  hdd_read (512 * n); switch_phase DATA_IN]) /\
    lba = cmd_buf hd 2 * 2 ^ 24 + cmd_buf hd 3 * 2 ^ 16
          + cmd_buf hd 4 * 2 ^ 8 + cmd_buf hd 5 /\
    n = cmd_buf hd 7 * 256 + cmd_buf hd 8 /\
    cur_buf_cnt hd' = 512 * n.
Proof.
  intros Hlabel Hb H0.
  pose proof (Hb 2) as B2. pose proof (Hb 3) as B3.
  pose proof (Hb 4) as B4. pose proof (Hb 5) as B5.
  pose proof (Hb 7) as B7. pose proof (Hb 8) as B8.
  assert (Hlba : lba_10 (cmd_buf hd)
                 = cmd_buf hd 2 * 2 ^ 24 + cmd_buf hd 3 * 2 ^ 16
                   + cmd_buf hd 4 * 2 ^ 8 + cmd_buf hd 5).
  { unfold lba_10. rewrite !Z.shiftl_mul_pow2 by lia. apply u32_small. lia. }
  assert (Hlen : transfer_len_10 (cmd_buf hd)
                 = cmd_buf hd 7 * 256 + cmd_buf hd 8).
  { unfold transfer_len_10. change 0xFFFF with (Z.ones 16).
    rewrite Z.land_ones, Z.shiftl_mul_pow2 by lia.
    change (2 ^ 8) with 256. apply Z.mod_small. lia. }
  rewrite (process_read_10 hd Hlabel H0).
  rewrite read_effects by (rewrite Hlen; lia).
  change (10 =? 6) with false. cbn [andb].
  do 3 eexists. split; [reflexivity|].
  split; [exact Hlba|]. split; [exact Hlen|]. reflexivity.
Qed.

(** X23. Capacity of an inserted image: after [insert_image] on a file of [size]
    bytes, READ CAPACITY (with a zero block address and the RelAdr bit
    clear) answers with 8 bytes, the block length 512 and the last block
    address [ceil(size / 512) - 1] in 32 bits; for a non-empty image this
    is the block that holds the last byte, for an empty image it is
    0xFFFFFFFF. *)
Theorem capacity_of_inserted_image (hd : HdState) (size : Z) :
  0 <= size < 2 ^ 31 - 512 ->
  Z.land (cmd_buf hd 1) 1 = 0 ->
  READ_DWORD_BE_U (cmd_buf hd) 2 = 0 ->
  exists hd1 hd2 last,
    insert_image hd (Some size) = Done (hd1, [hdd_open; hdd_seekg 0]) /\
    read_capacity_10 hd1
    = Done (hd2, [buf_store_dword_be 0 last; buf_store_dword_be 4 512;
                  switch_phase DATA_IN]) /\
    cur_buf_cnt hd2 = 8 /\
    (0 < size -> 512 * last < size <= 512 * (last + 1)) /\
    (size = 0 -> last = 0xFFFFFFFF).
Proof.
  intros Hsize Hrel Hlba.
  exists (set_image hd size ((size + HDD_SECTOR_SIZE - 1) / HDD_SECTOR_SIZE)).
  eexists. exists (u32 ((size + HDD_SECTOR_SIZE - 1) / HDD_SECTOR_SIZE - 1)).
  split; [reflexivity|].
  split.
  - unfold read_capacity_10. cbn [cmd_buf set_image total_blocks].
    rewrite Hlba, (GCFacts.nonzero_false _ Hrel).
    rewrite andb_false_r. reflexivity.
  - cbn [cur_buf_cnt set_msg_buf0 set_cur_buf_cnt].
    split; [reflexivity|]. unfold HDD_SECTOR_SIZE. split.
    + intros Hpos. rewrite u32_small.
      * Z.div_mod_to_equations. lia.
      * change (2 ^ 31) with 2147483648 in Hsize.
        change (2 ^ 32) with 4294967296.
        Z.div_mod_to_equations. lia.
    + intros ->. vm_compute. reflexivity.
Qed.

End DiskFacts.

(** *** Concrete runs *)

#[local] Existing Instance sample_scsi.

Lemma untested_commands_abort_witness :
  exists msg,
    process_command (hd_with [0x12; 0; 0; 0; 36; 0] 16) = Abort msg.
Proof.
  apply (untested_commands_abort (hd_with [0x12; 0; 0; 0; 36; 0] 16)).
  vm_compute. intuition discriminate.
Defined.

Lemma cmd_of_bytes bytes blocks :
  Forall (fun b => 0 <= b < 256) bytes -> cmd_bytes (hd_with bytes blocks).
Proof.
  intros Hall i. unfold hd_with, cmd_of. cbn [cmd_buf].
  destruct (i <? 0); [lia|].
  destruct (nth_in_or_default (Z.to_nat i) bytes 0) as [Hin | Hd]; [|rewrite Hd; lia].
  rewrite Forall_forall in Hall. now apply Hall.
Qed.

Lemma read_6_geometry_witness :
  exists hd' lba n,
    process_command (hd_with [0x08; 0x21; 0x02; 0x03; 0; 0] 16)
    = Done (hd', [buf_memset; hdd_seekg (512 * lba); hdd_read (512 * n);
                  switch_phase DATA_IN]) /\
    lba = (cmd_buf (hd_with [0x08; 0x21; 0x02; 0x03; 0; 0] 16) 1 mod 32)
          * 65536
          + cmd_buf (hd_with [0x08; 0x21; 0x02; 0x03; 0; 0] 16) 2 * 256
          + cmd_buf (hd_with [0x08; 0x21; 0x02; 0x03; 0; 0] 16) 3 /\
    0 <= lba < 2 ^ 21 /\
    n = (if cmd_buf (hd_with [0x08; 0x21; 0x02; 0x03; 0; 0] 16) 4 =? 0
         then 256
         else cmd_buf (hd_with [0x08; 0x21; 0x02; 0x03; 0; 0] 16) 4) /\
    1 <= n <= 256 /\
    cur_buf_cnt hd' = 512 * n /\
    status hd' = GOOD.
Proof.
  apply (read_6_geometry (hd_with [0x08; 0x21; 0x02; 0x03; 0; 0] 16)).
  - vm_compute. repeat split; discriminate.
  - apply cmd_of_bytes. repeat constructor; lia.
  - vm_compute. reflexivity.
Defined.

Lemma read_10_geometry_witness :
  exists hd' lba n,
    process_command
      (hd_with [0x28; 0; 0x00; 0x80; 0x00; 0x01; 0; 0x01; 0x02; 0] 16)
    = Done (hd', [buf_memset; hdd_seekg (512 * (lba mod 2 ^ 23));
                  hdd_read (512 * n); switch_phase DATA_IN]) /\
    lba = cmd_buf
            (hd_with [0x28; 0; 0x00; 0x80; 0x00; 0x01; 0; 0x01; 0x02; 0] 16) 2
          * 2 ^ 24
          + cmd_buf
              (hd_with [0x28; 0; 0x00; 0x80; 0x00; 0x01; 0; 0x01; 0x02; 0] 16)
              3 * 2 ^ 16
          + cmd_buf
              (hd_with [0x28; 0; 0x00; 0x80; 0x00; 0x01; 0; 0x01; 0x02; 0] 16)
              4 * 2 ^ 8
          + cmd_buf
              (hd_with [0x28; 0; 0x00; 0x80; 0x00; 0x01; 0; 0x01; 0x02; 0] 16)
              5 /\
    n = cmd_buf
          (hd_with [0x28; 0; 0x00; 0x80; 0x00; 0x01; 0; 0x01; 0x02; 0] 16) 7
        * 256
        + cmd_buf
            (hd_with [0x28; 0; 0x00; 0x80; 0x00; 0x01; 0; 0x01; 0x02; 0] 16)
            8 /\
    cur_buf_cnt hd' = 512 * n.
Proof.
  apply (read_10_geometry
           (hd_with [0x28; 0; 0x00; 0x80; 0x00; 0x01; 0; 0x01; 0x02; 0] 16)).
  - vm_compute. repeat split; discriminate.
  - apply cmd_of_bytes. repeat constructor; lia.
  - vm_compute. reflexivity.
Defined.

Lemma capacity_of_inserted_image_witness :
  exists hd1 hd2 last,
    insert_image (hd_with [0x25; 0; 0; 0; 0; 0; 0; 0; 0; 0] 0) (Some 1000)
    = Done (hd1, [hdd_open; hdd_seekg 0]) /\
    read_capacity_10 hd1
    = Done (hd2, [buf_store_dword_be 0 last; buf_store_dword_be 4 512;
                  switch_phase DATA_IN]) /\
    cur_buf_cnt hd2 = 8 /\
    (0 < 1000 -> 512 * last < 1000 <= 512 * (last + 1)) /\
    (1000 = 0 -> last = 0xFFFFFFFF).
Proof.
  apply (capacity_of_inserted_image
           (hd_with [0x25; 0; 0; 0; 0; 0; 0; 0; 0; 0] 0) 1000).
  - lia.
  - vm_compute. reflexivity.
  - vm_compute. reflexivity.
Defined.

End ScsiHdFacts.

(** ** The machine ID registers and the ADB keyboard *)

Module MachineIdFacts.
Import MachineId.

(** X24. The Nubus machine ID register reads as the signature 0xA5 0x5A followed
    by the 16-bit ID, high byte first; every byte read is below 256 and
    offsets from 4 on read as 0. *)
Theorem nubus_id_bytes (id reg_start offset size : Z) :
  0 <= id < 65536 -> 0 <= offset ->
  nubus_read (NubusMacID id) reg_start 0 size = 0xA5 /\
  nubus_read (NubusMacID id) reg_start 1 size = 0x5A /\
  nubus_read (NubusMacID id) reg_start 2 size * 256
  + nubus_read (NubusMacID id) reg_start 3 size = id /\
  0 <= nubus_read (NubusMacID id) reg_start offset size < 256 /\
  (4 <= offset -> nubus_read (NubusMacID id) reg_start offset size = 0).
Proof.
  intros Hid Hoff.
  assert (Hhi : Z.land (Z.shiftr id 8) 0xFF = id / 256).
  { change 0xFF with (Z.ones 8).
    rewrite Z.land_ones, Z.shiftr_div_pow2 by lia. change (2 ^ 8) with 256.
    apply Z.mod_small. Z.div_mod_to_equations. lia. }
  assert (Hlo : Z.land id 0xFF = id mod 256).
  { change 0xFF with (Z.ones 8). now rewrite Z.land_ones by lia. }
  unfold nubus_read, NubusMacID. rewrite Hhi, Hlo.
  split; [reflexivity|]. split; [reflexivity|].
  split; [simpl; Z.div_mod_to_equations; lia|].
  split.
  - destruct (Z.ltb_spec offset 4) as [Hlt|Hge]; [|lia].
    assert (Hc : offset = 0 \/ offset = 1 \/ offset = 2 \/ offset = 3) by lia.
    destruct Hc as [-> | [-> | [-> | ->]]]; simpl;
      Z.div_mod_to_equations; lia.
  - intros Hge. destruct (Z.ltb_spec offset 4); [lia|reflexivity].
Qed.

Lemma nubus_id_bytes_witness :
  nubus_read (NubusMacID 0x3010) 0 0 1 = 0xA5 /\
  nubus_read (NubusMacID 0x3010) 0 1 1 = 0x5A /\
  nubus_read (NubusMacID 0x3010) 0 2 1 * 256
  + nubus_read (NubusMacID 0x3010) 0 3 1 = 0x3010 /\
  0 <= nubus_read (NubusMacID 0x3010) 0 3 1 < 256 /\
  (4 <= 3 -> nubus_read (NubusMacID 0x3010) 0 3 1 = 0).
Proof.
  apply (nubus_id_bytes 0x3010 0 3 1); lia.
Defined.

End MachineIdFacts.

Module AdbKbdFacts.
Import GC AdbKbd.

Lemma set_register_3_keeps_ok kb count data :
  kbd_ok kb -> kbd_ok (fst (set_register_3 kb count data)).
Proof.
  unfold kbd_ok, set_register_3. intros (Ha & Hh & Hs).
  assert (Hnib : 0 <= Z.land (data 0) 0xF < 16)
    by apply GCBusFacts.land_0xF_range.
  destruct (count <? 2);
    [cbn [fst]; split; [exact Ha|]; split; [exact Hh|exact Hs]|].
  destruct (data 1) as [|p|p] eqn:Hd.
  - cbn [fst my_addr dev_handler_id srq_flag].
    split; [exact Hnib|]. split; [exact Hh|].
    destruct (nonzero (Z.land (data 0) 0x20)); simpl; auto.
  - do 8 (try (destruct p as [p|p|]));
      try (destruct (negb (got_collision kb)));
      cbn [fst my_addr dev_handler_id srq_flag];
      (split; [|split]);
      first [exact Ha | exact Hh | exact Hs | exact Hnib | (simpl; tauto)].
  - cbn [fst]. split; [exact Ha|]. split; [exact Hh|exact Hs].
Qed.

(** X25. Whatever the host writes to register 3 after a reset, the keyboard
    keeps a 4-bit address, the handler ID 1 or 2 and a service request flag
    of 0 or 1; fewer than two bytes of input change nothing. *)
Theorem keyboard_stays_well_formed
  (ADB_ADDR_KBD : Z) (kb : AdbKeyboard) (inputs : list (Z * (Z -> Z))) :
  0 <= ADB_ADDR_KBD < 16 ->
  kbd_ok (listen_3 (reset ADB_ADDR_KBD kb) inputs) /\
  (forall kb' count data,
      count < 2 -> set_register_3 kb' count data = (kb', None)).
Proof.
  intros Haddr. split.
  - assert (H0 : kbd_ok (reset ADB_ADDR_KBD kb)).
    { unfold kbd_ok, reset. simpl. auto. }
    revert H0. generalize (reset ADB_ADDR_KBD kb).
    induction inputs as [|[count data] rest IH]; intros k Hk; simpl.
    + exact Hk.
    + apply IH. now apply set_register_3_keeps_ok.
  - intros kb' count data Hc. unfold set_register_3.
    apply Z.ltb_lt in Hc. now rewrite Hc.
Qed.

Lemma keyboard_stays_well_formed_witness :
  kbd_ok (listen_3 (reset 2 (mkKbd 0 0 0 0 false))
            [(2, fun i => if i =? 0 then 0x27 else 0);
             (2, fun i => if i =? 0 then 0 else 1);
             (1, fun _ => 0xFF)]) /\
  (forall kb' count data,
      count < 2 -> set_register_3 kb' count data = (kb', None)).
Proof.
  apply (keyboard_stays_well_formed 2 (mkKbd 0 0 0 0 false)). lia.
Defined.

End AdbKbdFacts.
